(** * kubernoisy: a shallow embedding of the churn-cycle engine

    The repository holds two revisions of the same program:
    - [src/main.go]: integer [ops]; every cycle creates a headless service
      and an endpoints object, then deletes the service
      (module [SvcEps] below);
    - [src/unnamed/part_001]: floating-point [ops]; every cycle creates a
      pod and a headless service, then deletes both (module [PodSvc]).

    The helpers [debugf], [RandStringBytes] and [letterBytes] are
    textually the same in both revisions and are embedded once; so are
    the DNS polling loops, which differ in their exit condition only.

    Effects are threaded explicitly: a [World] holds what the program
    mutates or observes growing (clock, random draws consumed, DNS polls
    issued, the three Prometheus vectors, the log, the API calls made), an
    [Env] holds the answers of the outside world (random source, the
    orchestration API, the resolver). *)

From Stdlib Require Import ZArith QArith Lia Ascii.
From stdpp Require Import gmap strings list fin_maps.

Local Open Scope Z_scope.

(** ** Time *)

(** [time.Duration] is a count of nanoseconds in an [int64].  All
    durations handled here stay far below 2^63, so no wrap-around is
    written out. *)
Definition Duration := Z.

Definition Second : Duration := 1000000000.
Definition Minute : Duration := 60 * Second.

(** ** Strings *)

(** [len(s)] *)
Definition len (s : string) : Z := Z.of_nat (String.length s).

(** [strings.HasPrefix(s, p)] *)
Fixpoint has_prefix (p s : string) : bool :=
  match p, s with
  | EmptyString, _ => true
  | String a p', String b s' => if Ascii.eqb a b then has_prefix p' s' else false
  | String _ _, EmptyString => false
  end.

(** [strings.Contains(s, substr)]: [substr] occurs at some offset of [s]. *)
Fixpoint Contains (s substr : string) : bool :=
  if has_prefix substr s then true
  else match s with
       | EmptyString => false
       | String _ s' => Contains s' substr
       end.

(** Characters of a string, for statements about "every character". *)
Fixpoint chars (s : string) : list ascii :=
  match s with
  | EmptyString => []
  | String c s' => c :: chars s'
  end.

Definition is_digit (c : ascii) : bool :=
  let n := Ascii.N_of_ascii c in ((48 <=? n) && (n <=? 57))%N.

Definition is_lower (c : ascii) : bool :=
  let n := Ascii.N_of_ascii c in ((97 <=? n) && (n <=? 122))%N.

Definition is_lower_alnum (c : ascii) : bool := is_digit c || is_lower c.

(** ** Kubernetes objects (the fields the program sets) *)

Record ObjectMeta := {
  meta_Name : string;
  meta_Namespace : string;
  meta_Labels : gmap string string
}.

Record ServicePort := { sp_Name : string; sp_Port : Z }.

Record ServiceSpec := {
  ss_Ports : list ServicePort;
  ss_ClusterIP : string;
  ss_Type : string;
  ss_Selector : gmap string string
}.

Record Service := { svc_ObjectMeta : ObjectMeta; svc_Spec : ServiceSpec }.

Record EndpointAddress := { ea_IP : string; ea_Hostname : string }.
Record EndpointPort := { ep_Name : string; ep_Port : Z }.

Record EndpointSubset := {
  es_Addresses : list EndpointAddress;
  es_Ports : list EndpointPort
}.

Record Endpoints := { eps_ObjectMeta : ObjectMeta; eps_Subsets : list EndpointSubset }.

Record ContainerPort := { cp_Name : string; cp_ContainerPort : Z }.

Record Container := {
  c_Name : string;
  c_Image : string;
  c_Ports : list ContainerPort
}.

Record PodSpec := { ps_Hostname : string; ps_Containers : list Container }.
Record Pod := { pod_ObjectMeta : ObjectMeta; pod_Spec : PodSpec }.

(** [v1.ClusterIPNone] and [v1.ServiceTypeClusterIP] *)
Definition ClusterIPNone : string := "None".
Definition ServiceTypeClusterIP : string := "ClusterIP".

(** ** The outside world *)

(** A call on the orchestration API, with what is handed to it. *)
Inductive api_call :=
| PodsCreate (ns : string) (pod : Pod)
| ServicesCreate (ns : string) (svc : Service)
| EndpointsCreate (ns : string) (eps : Endpoints)
| PodsDelete (ns name : string)
| ServicesDelete (ns name : string).

Inductive api_op := OpCreatePod | OpCreateService | OpCreateEndpoints
                  | OpDeletePod | OpDeleteService.

Definition op_of (c : api_call) : api_op :=
  match c with
  | PodsCreate _ _ => OpCreatePod
  | ServicesCreate _ _ => OpCreateService
  | EndpointsCreate _ _ => OpCreateEndpoints
  | PodsDelete _ _ => OpDeletePod
  | ServicesDelete _ _ => OpDeleteService
  end.

(** Result of [net.LookupIP]: the addresses (each as [IP.String()] prints
    it) or the error's message. *)
Inductive lookup_result :=
| Resolved (ips : list string)
| LookupError (msg : string).

(** The answers the program receives.  [rand_src] is the raw sequence
    behind [math/rand]; [api_err] is the error (if any) each kind of API
    call returns; the [n]-th [net.LookupIP] of a cycle answers
    [dns_answer name n] after [dns_latency n] nanoseconds. *)
Record Env := {
  rand_src : nat -> Z;
  api_err : api_op -> option string;
  dns_answer : string -> nat -> lookup_result;
  dns_latency : nat -> N
}.

(** One formatted log line: the format string and its operands. *)
Inductive fmt_arg := ArgS (s : string) | ArgZ (z : Z) | ArgQ (q : Q).

Record log_line := { ll_fmt : string; ll_args : list fmt_arg }.

(** ** What the program changes *)

Record World := {
  clock : Z;                                   (* monotonic clock, ns *)
  rng_pos : nat;                               (* draws taken from math/rand *)
  dns_polls : nat;                             (* net.LookupIP calls issued *)
  OperationCount : gmap (string * string) nat; (* {object, action} *)
  ValidationFailCount : gmap string nat;       (* {action} *)
  ValidationDuration : gmap string (list Duration); (* {action}: observations *)
  log_out : list log_line;
  api_calls : list api_call
}.

Definition world0 : World :=
  {| clock := 0; rng_pos := 0; dns_polls := 0;
     OperationCount := ∅; ValidationFailCount := ∅; ValidationDuration := ∅;
     log_out := []; api_calls := [] |}.

(** ** A state monad with panics *)

(** [OutOfFuel] is the only artefact of the embedding: loops are unrolled
    over a fuel argument, and every use below is shown never to reach it. *)
Inductive result (A : Type) :=
| Ok (a : A) (w : World)
| Panic (msg : string)
| OutOfFuel.
Arguments Ok {A} a w.
Arguments Panic {A} msg.
Arguments OutOfFuel {A}.

Definition M (A : Type) := World -> result A.

Definition ret {A} (a : A) : M A := fun w => Ok a w.

Definition bind {A B} (m : M A) (f : A -> M B) : M B :=
  fun w => match m w with
           | Ok a w' => f a w'
           | Panic msg => Panic msg
           | OutOfFuel => OutOfFuel
           end.

Definition panic {A} (msg : string) : M A := fun _ => Panic msg.

Declare Scope go_scope.
Delimit Scope go_scope with go.
Notation "x <- m ;; k" := (bind m (fun x => k))
  (at level 100, m at next level, right associativity) : go_scope.
Notation "m ;;; k" := (bind m (fun _ => k))
  (at level 100, right associativity) : go_scope.
Local Open Scope go_scope.

(** The flags of the command line; [ops] is an [int] in one revision and
    a [float64] in the other. *)
Record Flags (opsT : Type) := {
  ops : opsT;
  promaddr : string;
  namespace : string;
  timeout : Duration;
  verbose : bool
}.
Arguments ops {opsT} _.
Arguments promaddr {opsT} _.
Arguments namespace {opsT} _.
Arguments timeout {opsT} _.
Arguments verbose {opsT} _.

(** [vec.WithLabelValues(labels...).Inc()] on a counter vector: the
    counter of these labels is created at 0 on first use. *)
Definition Inc {K} `{Countable K} (k : K) (m : gmap K nat) : gmap K nat :=
  <[k := S (default 0%nat (m !! k))]> m.

(** [vec.WithLabelValues(labels...).Observe(d)] on a histogram vector. *)
Definition Observe {K} `{Countable K} (k : K) (d : Duration)
    (m : gmap K (list Duration)) : gmap K (list Duration) :=
  <[k := default [] (m !! k) ++ [d]]> m.

Section Primitives.
Variable env : Env.

(** [rand.Intn(n)]: panics for [n <= 0], otherwise a value in [0, n).
    Any sequence of such values is produced by some [rand_src]. *)
Definition Intn (n : Z) : M Z := fun w =>
  if n <=? 0 then Panic "invalid argument to Intn"
  else Ok (rand_src env (rng_pos w) mod n)
          {| clock := clock w; rng_pos := S (rng_pos w); dns_polls := dns_polls w;
             OperationCount := OperationCount w;
             ValidationFailCount := ValidationFailCount w;
             ValidationDuration := ValidationDuration w;
             log_out := log_out w; api_calls := api_calls w |}.

(** [s[i]] on a string: a byte, or a run-time panic out of range. *)
Definition index (s : string) (i : Z) : M ascii :=
  if i <? 0 then panic "index out of range"
  else match String.get (Z.to_nat i) s with
       | Some c => ret c
       | None => panic "index out of range"
       end.

(** [time.Now()], read as nanoseconds on the monotonic clock. *)
Definition Now : M Z := fun w => Ok (clock w) w.

(** [time.Since(start)] *)
Definition Since (start : Z) : M Duration := fun w => Ok (clock w - start) w.

(** [time.Sleep(d)]: returns at once for [d <= 0]; otherwise the clock
    moves by [d] (the scheduler's overshoot is not modelled, and the
    statements between two clock readings take no time). *)
Definition Sleep (d : Duration) : M unit := fun w =>
  Ok tt {| clock := clock w + Z.max 0 d; rng_pos := rng_pos w; dns_polls := dns_polls w;
           OperationCount := OperationCount w;
           ValidationFailCount := ValidationFailCount w;
           ValidationDuration := ValidationDuration w;
           log_out := log_out w; api_calls := api_calls w |}.

(** [net.LookupIP(name)] *)
Definition LookupIP (name : string) : M lookup_result := fun w =>
  Ok (dns_answer env name (dns_polls w))
     {| clock := clock w + Z.of_N (dns_latency env (dns_polls w));
        rng_pos := rng_pos w; dns_polls := S (dns_polls w);
        OperationCount := OperationCount w;
        ValidationFailCount := ValidationFailCount w;
        ValidationDuration := ValidationDuration w;
        log_out := log_out w; api_calls := api_calls w |}.

(** A call through [kapi.CoreV1()]: recorded, answered by the
    environment. *)
Definition api (c : api_call) : M (option string) := fun w =>
  Ok (api_err env (op_of c))
     {| clock := clock w; rng_pos := rng_pos w; dns_polls := dns_polls w;
        OperationCount := OperationCount w;
        ValidationFailCount := ValidationFailCount w;
        ValidationDuration := ValidationDuration w;
        log_out := log_out w; api_calls := api_calls w ++ [c] |}.

(** [log.Printf(fmt, v...)] *)
Definition log_Printf (fmt : string) (v : list fmt_arg) : M unit := fun w =>
  Ok tt {| clock := clock w; rng_pos := rng_pos w; dns_polls := dns_polls w;
           OperationCount := OperationCount w;
           ValidationFailCount := ValidationFailCount w;
           ValidationDuration := ValidationDuration w;
           log_out := log_out w ++ [{| ll_fmt := fmt; ll_args := v |}];
           api_calls := api_calls w |}.

(** [OperationCount.WithLabelValues(object, action).Inc()] *)
Definition OperationCount_Inc (object action : string) : M unit := fun w =>
  Ok tt {| clock := clock w; rng_pos := rng_pos w; dns_polls := dns_polls w;
           OperationCount := Inc (object, action) (OperationCount w);
           ValidationFailCount := ValidationFailCount w;
           ValidationDuration := ValidationDuration w;
           log_out := log_out w; api_calls := api_calls w |}.

(** [ValidationFailCount.WithLabelValues(action).Inc()] *)
Definition ValidationFailCount_Inc (action : string) : M unit := fun w =>
  Ok tt {| clock := clock w; rng_pos := rng_pos w; dns_polls := dns_polls w;
           OperationCount := OperationCount w;
           ValidationFailCount := Inc action (ValidationFailCount w);
           ValidationDuration := ValidationDuration w;
           log_out := log_out w; api_calls := api_calls w |}.

(** [ValidationDuration.WithLabelValues(action).Observe(d.Seconds())];
    the observation is kept as the duration itself, [Seconds()] being
    only its change of unit. *)
Definition ValidationDuration_Observe (action : string) (d : Duration) : M unit := fun w =>
  Ok tt {| clock := clock w; rng_pos := rng_pos w; dns_polls := dns_polls w;
           OperationCount := OperationCount w;
           ValidationFailCount := ValidationFailCount w;
           ValidationDuration := Observe action d (ValidationDuration w);
           log_out := log_out w; api_calls := api_calls w |}.

(** ** [debugf] *)
Definition debugf (verbose : bool) (fmt : string) (v : list fmt_arg) : M unit :=
  if negb verbose then ret tt
  else log_Printf fmt v.

(** ** [RandStringBytes] *)

Definition letterBytes : string := "0123456789abcdefghijklmnopqrstuvwxyz".

(** The [for i := range b] loop over the [n] cells of [b], in order. *)
Fixpoint fill_bytes (n : nat) : M string :=
  match n with
  | O => ret EmptyString
  | S k =>
      i <- Intn (len letterBytes) ;;
      c <- index letterBytes i ;;
      rest <- fill_bytes k ;;
      ret (String c rest)
  end.

(** [make([]byte, n)] panics for a negative [n]. *)
Definition RandStringBytes (n : Z) : M string :=
  if n <? 0 then panic "makeslice: len out of range"
  else fill_bytes (Z.to_nat n).

(** [rando := "kubernoisy-" + RandStringBytes(18)] *)
Definition new_identity : M string :=
  s <- RandStringBytes 18 ;;
  ret ("kubernoisy-" +:+ s).

End Primitives.

(** ** The convergence loops *)

(** Both loops have the shape
<<
    for start := time.Now(); time.Since(start) < timeout; {
        ips, err := net.LookupIP(rando)
        if <cond> { verified = true; break }
        time.Sleep(time.Second)
        elapsed = time.Since(start)
    }
>>
    and differ in [<cond>] only.  [poll_loop] is that loop from its guard
    on; the pair returned is [(verified, elapsed)] at loop exit. *)
Fixpoint poll_loop (env : Env) (fuel : nat) (cond : lookup_result -> bool)
    (name : string) (tmo : Duration) (start : Z) (elapsed : Duration)
    : M (bool * Duration) :=
  match fuel with
  | O => fun _ => OutOfFuel
  | S fuel' =>
      since <- Since start ;;
      if since <? tmo then
        r <- LookupIP env name ;;
        if cond r then ret (true, elapsed)
        else
          Sleep Second ;;;
          elapsed' <- Since start ;;
          poll_loop env fuel' cond name tmo start elapsed'
      else ret (false, elapsed)
  end.

(** Every iteration that does not leave the loop sleeps a full second, so
    the body runs at most [tmo / Second + 1] times. *)
Definition loop_fuel (tmo : Duration) : nat := (Z.to_nat (tmo / Second) + 2)%nat.

(** [verified := false; elapsed = 0; for start := time.Now(); ... ] *)
Definition verify (env : Env) (cond : lookup_result -> bool) (name : string)
    (tmo : Duration) : M (bool * Duration) :=
  start <- Now ;;
  poll_loop env (loop_fuel tmo) cond name tmo start 0.

(** [err == nil && len(ips) > 0 && ips[0].String() == ip]  ([src/main.go]) *)
Definition resolves_to (ip : string) (r : lookup_result) : bool :=
  match r with
  | Resolved (ip0 :: _) => String.eqb ip0 ip
  | _ => false
  end.

(** [err == nil && len(ips) > 0]  ([src/unnamed/part_001]) *)
Definition resolves (r : lookup_result) : bool :=
  match r with
  | Resolved (_ :: _) => true
  | _ => false
  end.

(** [err != nil && strings.Contains(err.Error(), "no such host")] *)
Definition not_found (r : lookup_result) : bool :=
  match r with
  | LookupError msg => Contains msg "no such host"
  | Resolved _ => false
  end.

(** [if !verified { ValidationFailCount...Inc() } else { ValidationDuration...Observe(elapsed.Seconds()) }] *)
Definition record_validation (action : string) (v : bool * Duration) : M unit :=
  if negb (fst v) then ValidationFailCount_Inc action
  else ValidationDuration_Observe action (snd v).

(** One verification phase: the loop, then the metric it feeds. *)
Definition validate (env : Env) (cond : lookup_result -> bool) (name : string)
    (tmo : Duration) (action : string) : M unit :=
  v <- verify env cond name tmo ;;
  record_validation action v.

(** The loop of [main]: what the [select] receives, in order. *)
Inductive select_event := Tick | Sig.

(** What [main] does that is visible from outside. *)
Inductive main_event :=
| EvFatal (msg : string)                      (* log.Fatal: print, exit status 1 *)
| EvSignalNotify
| EvGetAPIConn
| EvHandle (pattern : string)
| EvListenAndServe (addr : string)            (* go http.ListenAndServe *)
| EvNewTicker (d : Duration)
| EvPanic (msg : string)
| EvPrintf (line : log_line)
| EvGo                                        (* go func() { one churn cycle }() *)
| EvExit (code : Z).

(** [for { select { case <-ticker.C: go func() {...}(); case <-sig: ...; os.Exit(0) } }],
    over a finite prefix of what the two channels deliver. *)
Fixpoint select_loop (evs : list select_event) : list main_event :=
  match evs with
  | [] => []
  | Tick :: evs' => EvGo :: select_loop evs'
  | Sig :: _ =>
      [EvPrintf {| ll_fmt := "Got signal, exiting"; ll_args := [] |}; EvExit 0]
  end.

(** [time.NewTicker(d)] panics unless [d > 0]. *)
Definition NewTicker (d : Duration) (k : list main_event) : list main_event :=
  if d <=? 0 then [EvPanic "non-positive interval for NewTicker"]
  else EvNewTicker d :: k.

(** ** Revision [src/main.go]: service and endpoints *)
Module SvcEps.

(** The flags as declared: [-ops 1], [-prom :9696], [-namespace load-test],
    [-timeout 30s], [-verbose=false]. *)
Definition default_flags : Flags Z :=
  {| ops := 1; promaddr := ":9696"; namespace := "load-test";
     timeout := 30 * Second; verbose := false |}.

(** The ticker period: [1 * time.Second / time.Duration(ops)]. *)
Definition ticker_period (ops : Z) : Duration := (1 * Second) ÷ ops.

(** [main], from [flag.Parse()] on.  [conn] is the error of
    [getAPIConn()], if any. *)
Definition main (f : Flags Z) (conn : option string) (evs : list select_event)
    : list main_event :=
  if ops f <=? 0 then [EvFatal "ops cannot be <= 0"]
  else
    EvSignalNotify :: EvGetAPIConn ::
    match conn with
    | Some e => [EvFatal e]
    | None =>
        EvHandle "/metrics" :: EvListenAndServe (promaddr f) ::
        NewTicker (ticker_period (ops f))
          (EvPrintf {| ll_fmt := "Performing %v operations per second";
                       ll_args := [ArgZ (ops f)] |}
           :: select_loop evs)
    end.

Definition ip : string := "1.2.3.4".

Definition mk_service (rando ns : string) : Service :=
  {| svc_ObjectMeta := {| meta_Name := rando; meta_Namespace := ns; meta_Labels := ∅ |};
     svc_Spec := {| ss_Ports := [{| sp_Name := "http"; sp_Port := 80 |}];
                    ss_ClusterIP := ClusterIPNone;
                    ss_Type := ServiceTypeClusterIP;
                    ss_Selector := ∅ |} |}.

Definition mk_endpoints (rando ns : string) : Endpoints :=
  {| eps_ObjectMeta := {| meta_Name := rando; meta_Namespace := ns; meta_Labels := ∅ |};
     eps_Subsets :=
       [{| es_Addresses := [{| ea_IP := ip; ea_Hostname := "test" |}];
           es_Ports := [{| ep_Name := "http"; ep_Port := 80 |}] |}] |}.

(** The body of the goroutine launched on each tick, for the identity
    [rando] already drawn. *)
Definition cycle_body (env : Env) (f : Flags Z) (rando : string) : M unit :=
  let ns := namespace f in
  (* create headless service *)
  let svc := mk_service rando ns in
  err <- api env (ServicesCreate ns svc) ;;
  match err with
  | Some e => log_Printf "could not create service %v.%v: %v" [ArgS rando; ArgS ns; ArgS e]
  | None => ret tt
  end ;;;
  OperationCount_Inc "service" "add" ;;;
  (* create endpoints *)
  let eps := mk_endpoints rando ns in
  err <- api env (EndpointsCreate ns eps) ;;
  match err with
  | Some e => debugf (verbose f) "could not create endpoints %v.%v: %v" [ArgS rando; ArgS ns; ArgS e]
  | None => ret tt
  end ;;;
  OperationCount_Inc "endpoints" "add" ;;;
  (* verify via DNS in loop with timeout *)
  validate env (resolves_to ip) rando (timeout f) "add" ;;;
  (* delete headless service and (implicitly) endpoints *)
  err <- api env (ServicesDelete ns rando) ;;
  match err with
  | Some e => debugf (verbose f) "could not delete service %v.%v: %v" [ArgS rando; ArgS ns; ArgS e]
  | None => ret tt
  end ;;;
  OperationCount_Inc "service" "delete" ;;;
  (* verify via DNS in loop with timeout *)
  validate env not_found rando (timeout f) "delete".

Definition cycle (env : Env) (f : Flags Z) : M unit :=
  rando <- new_identity env ;;
  cycle_body env f rando.

End SvcEps.

(** ** Revision [src/unnamed/part_001]: pod and service *)
Module PodSvc.

(** The flags as declared; the timeout defaults to 30 minutes here. *)
Definition default_flags : Flags Q :=
  {| ops := 1%Q; promaddr := ":9696"; namespace := "load-test";
     timeout := 30 * Minute; verbose := false |}.

(** Conversion of a [float64] to [time.Duration] (an integer type):
    the fraction is discarded.  Values outside the range of [int64] are
    not modelled. *)
Definition Duration_of_float (x : Q) : Duration := Qnum x ÷ Zpos (Qden x).

(** The ticker period: [time.Duration(1/ops) * time.Second].  The
    [float64] [ops] is read as the rational it denotes; the quotient
    [1/ops] is exact in [float64] whenever it is representable, as it is
    for [ops] a power of two. *)
Definition ticker_period (ops : Q) : Duration := Duration_of_float (1 / ops) * Second.

Definition main (f : Flags Q) (conn : option string) (evs : list select_event)
    : list main_event :=
  if Qle_bool (ops f) 0 then [EvFatal "ops cannot be <= 0"]
  else
    EvSignalNotify :: EvGetAPIConn ::
    match conn with
    | Some e => [EvFatal e]
    | None =>
        EvHandle "/metrics" :: EvListenAndServe (promaddr f) ::
        NewTicker (ticker_period (ops f))
          (EvPrintf {| ll_fmt := "Performing %v operations per second";
                       ll_args := [ArgQ (ops f)] |}
           :: select_loop evs)
    end.

Definition mk_pod (rando ns : string) : Pod :=
  {| pod_ObjectMeta :=
       {| meta_Name := rando; meta_Namespace := ns;
          meta_Labels := <["app" := rando]> (<["kubernoisy" := "noise"]> ∅) |};
     pod_Spec :=
       {| ps_Hostname := "pod";
          ps_Containers :=
            [{| c_Name := rando;
                c_Image := "gcr.io/google_containers/pause:3.2";
                c_Ports := [{| cp_Name := "kubernoisy"; cp_ContainerPort := 1234 |}] |}] |} |}.

Definition mk_service (rando ns : string) : Service :=
  {| svc_ObjectMeta :=
       {| meta_Name := rando; meta_Namespace := ns;
          meta_Labels := <["kubernoisy" := "noise"]> ∅ |};
     svc_Spec := {| ss_Ports := [{| sp_Name := "kubernoisy"; sp_Port := 1234 |}];
                    ss_ClusterIP := ClusterIPNone;
                    ss_Type := ServiceTypeClusterIP;
                    ss_Selector := <["app" := rando]> ∅ |} |}.

Definition cycle_body (env : Env) (f : Flags Q) (rando : string) : M unit :=
  let ns := namespace f in
  (* create pod *)
  let pod := mk_pod rando ns in
  err <- api env (PodsCreate ns pod) ;;
  match err with
  | Some e => log_Printf "could not create pod %v.%v: %v" [ArgS rando; ArgS ns; ArgS e]
  | None => OperationCount_Inc "pod" "add"
  end ;;;
  (* create headless service *)
  let svc := mk_service rando ns in
  err <- api env (ServicesCreate ns svc) ;;
  match err with
  | Some e => log_Printf "could not create service %v.%v: %v" [ArgS rando; ArgS ns; ArgS e]
  | None => OperationCount_Inc "service" "add"
  end ;;;
  (* verify via DNS in loop with timeout *)
  validate env resolves rando (timeout f) "add" ;;;
  (* delete pod *)
  err <- api env (PodsDelete ns rando) ;;
  match err with
  | Some e => debugf (verbose f) "could not delete pod pod.%v.%v: %v" [ArgS rando; ArgS ns; ArgS e]
  | None => OperationCount_Inc "pod" "delete"
  end ;;;
  (* delete headless service *)
  err <- api env (ServicesDelete ns rando) ;;
  match err with
  | Some e => debugf (verbose f) "could not delete service %v.%v: %v" [ArgS rando; ArgS ns; ArgS e]
  | None => OperationCount_Inc "service" "delete"
  end ;;;
  (* verify via DNS in loop with timeout *)
  validate env not_found rando (timeout f) "delete".

Definition cycle (env : Env) (f : Flags Q) : M unit :=
  rando <- new_identity env ;;
  cycle_body env f rando.

End PodSvc.

(** ** Worlds that differ in a few fields *)

Definition set_rng (p : nat) (w : World) : World :=
  {| clock := clock w; rng_pos := p; dns_polls := dns_polls w;
     OperationCount := OperationCount w;
     ValidationFailCount := ValidationFailCount w;
     ValidationDuration := ValidationDuration w;
     log_out := log_out w; api_calls := api_calls w |}.

(** The world after some polling: only the clock and the poll count moved. *)
Definition advance (c : Z) (p : nat) (w : World) : World :=
  {| clock := c; rng_pos := rng_pos w; dns_polls := p;
     OperationCount := OperationCount w;
     ValidationFailCount := ValidationFailCount w;
     ValidationDuration := ValidationDuration w;
     log_out := log_out w; api_calls := api_calls w |}.

(** ** Quantities the statements speak about *)

(** The clock reading at which the [k]-th further poll is issued, when
    the clock reads [c] at the guard, [p] polls were issued before and
    none of the polls in between converged: each of them takes its
    latency, then a full second of sleep. *)
Fixpoint issue_time (env : Env) (c : Z) (p : nat) (k : nat) : Z :=
  match k with
  | O => c
  | S k' => issue_time env (c + Z.of_N (dns_latency env p) + Second) (S p) k'
  end.

(** Value of a counter of a vector (0 until first incremented). *)
Definition count {K} `{Countable K} (m : gmap K nat) (k : K) : nat :=
  default 0%nat (m !! k).

(** Observations of one histogram of the vector. *)
Definition observed (m : gmap string (list Duration)) (action : string) : list Duration :=
  default [] (m !! action).

(** The world after a verification phase: the clock and the poll count
    moved, the validation metrics were fed. *)
Definition set_validation (c : Z) (p : nat) (vf : gmap string nat)
    (vd : gmap string (list Duration)) (w : World) : World :=
  {| clock := c; rng_pos := rng_pos w; dns_polls := p;
     OperationCount := OperationCount w;
     ValidationFailCount := vf; ValidationDuration := vd;
     log_out := log_out w; api_calls := api_calls w |}.

(** The line logged for a failed call on the object [rando] of [ns]. *)
Definition failure_line (fmt rando ns : string) (err : option string) : list log_line :=
  match err with
  | Some e => [{| ll_fmt := fmt; ll_args := [ArgS rando; ArgS ns; ArgS e] |}]
  | None => []
  end.

Definition when {A} (b : bool) (l : list A) : list A := if b then l else [].

(** A counter that moves on success only. *)
Definition Inc_on_success {K} `{Countable K} (err : option string) (k : K)
    (m : gmap K nat) : gmap K nat :=
  match err with
  | None => Inc k m
  | Some _ => m
  end.

(** The [{object, action}] labels under which a call is counted. *)
Definition counter_key (op : api_op) : string * string :=
  match op with
  | OpCreatePod => ("pod", "add")
  | OpCreateService => ("service", "add")
  | OpCreateEndpoints => ("endpoints", "add")
  | OpDeletePod => ("pod", "delete")
  | OpDeleteService => ("service", "delete")
  end.

(** The API calls made between two worlds. *)
Definition new_calls (w w' : World) : list api_call :=
  drop (length (api_calls w)) (api_calls w').

Definition new_lines (w w' : World) : list log_line :=
  drop (length (log_out w)) (log_out w').

Definition is_create (c : api_call) : bool :=
  match c with
  | PodsCreate _ _ | ServicesCreate _ _ | EndpointsCreate _ _ => true
  | _ => false
  end.

(** What one cycle of [src/main.go] leaves behind, for the identity
    [rando]: the calls it makes, the lines it logs, the counters it moves. *)
Definition svceps_calls (f : Flags Z) (rando : string) : list api_call :=
  [ServicesCreate (namespace f) (SvcEps.mk_service rando (namespace f));
   EndpointsCreate (namespace f) (SvcEps.mk_endpoints rando (namespace f));
   ServicesDelete (namespace f) rando].

Definition svceps_lines (env : Env) (f : Flags Z) (rando : string) : list log_line :=
  failure_line "could not create service %v.%v: %v" rando (namespace f)
    (api_err env OpCreateService)
  ++ when (verbose f)
       (failure_line "could not create endpoints %v.%v: %v" rando (namespace f)
          (api_err env OpCreateEndpoints))
  ++ when (verbose f)
       (failure_line "could not delete service %v.%v: %v" rando (namespace f)
          (api_err env OpDeleteService)).

Definition svceps_counts (m : gmap (string * string) nat) : gmap (string * string) nat :=
  Inc ("service", "delete") (Inc ("endpoints", "add") (Inc ("service", "add") m)).

(** The same for [src/unnamed/part_001]. *)
Definition podsvc_calls (f : Flags Q) (rando : string) : list api_call :=
  [PodsCreate (namespace f) (PodSvc.mk_pod rando (namespace f));
   ServicesCreate (namespace f) (PodSvc.mk_service rando (namespace f));
   PodsDelete (namespace f) rando;
   ServicesDelete (namespace f) rando].

Definition podsvc_lines (env : Env) (f : Flags Q) (rando : string) : list log_line :=
  failure_line "could not create pod %v.%v: %v" rando (namespace f)
    (api_err env OpCreatePod)
  ++ failure_line "could not create service %v.%v: %v" rando (namespace f)
       (api_err env OpCreateService)
  ++ when (verbose f)
       (failure_line "could not delete pod pod.%v.%v: %v" rando (namespace f)
          (api_err env OpDeletePod))
  ++ when (verbose f)
       (failure_line "could not delete service %v.%v: %v" rando (namespace f)
          (api_err env OpDeleteService)).

Definition podsvc_counts (env : Env) (m : gmap (string * string) nat)
    : gmap (string * string) nat :=
  Inc_on_success (api_err env OpDeleteService) ("service", "delete")
    (Inc_on_success (api_err env OpDeletePod) ("pod", "delete")
       (Inc_on_success (api_err env OpCreateService) ("service", "add")
          (Inc_on_success (api_err env OpCreatePod) ("pod", "add") m))).

(** ** Counting policies *)

(** The counter of [op] moves by one in every cycle, whatever the call
    answers. *)
Definition counted_always {T} (cycle : Env → Flags T → M unit) (op : api_op) : Prop :=
  ∀ env f w, ∃ w',
    cycle env f w = Ok tt w'
    ∧ count (OperationCount w') (counter_key op)
      = S (count (OperationCount w) (counter_key op)).

(** The counter of [op] moves by one when the call succeeds and stays
    where it is when the call fails. *)
Definition counted_on_success {T} (cycle : Env → Flags T → M unit) (op : api_op) : Prop :=
  ∀ env f w, ∃ w',
    cycle env f w = Ok tt w'
    ∧ count (OperationCount w') (counter_key op)
      = (count (OperationCount w) (counter_key op)
         + if api_err env op is None then 1 else 0)%nat.

(** The mixed policy: creations of services and endpoints counted
    always, creations of pods and all deletions counted on success, over
    the calls [ops] that a cycle makes. *)
Definition mixed_policy {T} (cycle : Env → Flags T → M unit) (ops : list api_op) : Prop :=
  ∀ op, op ∈ ops →
    match op with
    | OpCreateService | OpCreateEndpoints => counted_always cycle op
    | OpCreatePod | OpDeletePod | OpDeleteService => counted_on_success cycle op
    end.

(** Every call attempted moves its counter by exactly one. *)
Definition one_count_per_attempt {T} (cycle : Env → Flags T → M unit) : Prop :=
  ∀ env f w, ∃ w',
    cycle env f w = Ok tt w'
    ∧ ∀ call, call ∈ new_calls w w' →
        count (OperationCount w') (counter_key (op_of call))
        = S (count (OperationCount w) (counter_key (op_of call))).

(** With [verbose] off a cycle logs nothing, whatever fails; it runs to
    its end and makes no call twice. *)
Definition failures_silent_unless_verbose {T} (cycle : Env → Flags T → M unit) : Prop :=
  ∀ env f w, ∃ w',
    cycle env f w = Ok tt w'
    ∧ (verbose f = false → new_lines w w' = [])
    ∧ NoDup (op_of <$> new_calls w w').

Definition svceps_ops : list api_op := [OpCreateService; OpCreateEndpoints; OpDeleteService].
Definition podsvc_ops : list api_op :=
  [OpCreatePod; OpCreateService; OpDeletePod; OpDeleteService].

(** ** Ticks and launches *)

(** Ticks received before the first signal. *)
Fixpoint ticks_before_signal (evs : list select_event) : nat :=
  match evs with
  | Tick :: evs' => S (ticks_before_signal evs')
  | _ => O
  end.

(** Cycles launched along a trace of [main]. *)
Fixpoint launches (tr : list main_event) : nat :=
  match tr with
  | [] => O
  | EvGo :: tr' => S (launches tr')
  | _ :: tr' => launches tr'
  end.

(** ** Sample environments *)

(** The resolver answers [default] except at the polls listed. *)
Definition answers (l : list lookup_result) (default : lookup_result)
    (name : string) (n : nat) : lookup_result :=
  nth n l default.

(** Every API call succeeds; the name resolves to 1.2.3.4 from the
    third poll on and is gone two polls after that; lookups take 2 ms. *)
Definition env_ok : Env :=
  {| rand_src := λ n, Z.of_nat n * 7;
     api_err := λ _, None;
     dns_answer := answers [LookupError "lookup: no such host"; Resolved [];
                            Resolved ["1.2.3.4"]; Resolved ["1.2.3.4"]; LookupError "i/o timeout"]
                           (LookupError "lookup: no such host");
     dns_latency := λ _, 2000000%N |}.

(** Every API call fails; the name never resolves. *)
Definition env_fail : Env :=
  {| rand_src := λ n, Z.of_nat n * 7;
     api_err := λ _, Some "connection refused";
     dns_answer := answers [] (LookupError "lookup: no such host");
     dns_latency := λ _, 0%N |}.

(** The name resolves, to nothing else than 1.2.3.4, for ever. *)
Definition env_stuck : Env :=
  {| rand_src := λ n, Z.of_nat n * 7;
     api_err := λ _, None;
     dns_answer := answers [] (Resolved ["1.2.3.4"]);
     dns_latency := λ _, 0%N |}.

Definition flags_int (n : Z) (verb : bool) : Flags Z :=
  {| ops := n; promaddr := ":9696"; namespace := "load-test";
     timeout := 30 * Second; verbose := verb |}.

Definition flags_float (x : Q) (verb : bool) : Flags Q :=
  {| ops := x; promaddr := ":9696"; namespace := "load-test";
     timeout := 30 * Second; verbose := verb |}.

(** ** [getAPIConn] *)

(** The fields of [rest.Config] that matter here. *)
Record RestConfig := {
  rc_Host : string;
  rc_BearerToken : string;
  rc_ContentType : string
}.

(** A client set, known by the configuration it was built from. *)
Record Clientset := { cs_config : RestConfig }.

(** The two library calls behind [getAPIConn]: [rest.InClusterConfig()]
    gives a configuration or an error, [kubernetes.NewForConfig(config)]
    a client (possibly nil) and an error (possibly nil). *)
Record KubeEnv := {
  InClusterConfig : RestConfig + string;
  NewForConfig : RestConfig → option Clientset * option string
}.

(** [config.ContentType = "application/vnd.kubernetes.protobuf"] *)
Definition with_protobuf (config : RestConfig) : RestConfig :=
  {| rc_Host := rc_Host config;
     rc_BearerToken := rc_BearerToken config;
     rc_ContentType := "application/vnd.kubernetes.protobuf" |}.

Definition getAPIConn (k : KubeEnv) : option Clientset * option string :=
  match InClusterConfig k with
  | inr err => (None, Some err)
  | inl config => NewForConfig k (with_protobuf config)
  end.


(** ** Outcomes of a verification phase *)

(** The failure counter moves unless the phase verified. *)
Definition Inc_unless {K} `{Countable K} (verified : bool) (k : K)
    (m : gmap K nat) : gmap K nat :=
  if verified then m else Inc k m.

(** The histogram is fed when the phase verified. *)
Definition Observe_if {K} `{Countable K} (verified : bool) (k : K) (d : Duration)
    (m : gmap K (list Duration)) : gmap K (list Duration) :=
  if verified then Observe k d m else m.

(** The most polls one phase can issue: one per second of timeout begun. *)
Definition max_polls (tmo : Duration) : Z := Z.max 0 ((tmo + Second - 1) / Second).

(** The raw draw behind the [i]-th letter taken from world [w] on. *)
Definition draw (env : Env) (w : World) (i : nat) : Z :=
  rand_src env (rng_pos w + i) mod len letterBytes.

(** The namespace a call is addressed to ([kapi.CoreV1().Pods(namespace)] and the like). *)
Definition call_namespace (c : api_call) : string :=
  match c with
  | PodsCreate ns _ | ServicesCreate ns _ | EndpointsCreate ns _
  | PodsDelete ns _ | ServicesDelete ns _ => ns
  end.

(** The name of the object a call is about. *)
Definition call_name (c : api_call) : string :=
  match c with
  | PodsCreate _ pod => meta_Name (pod_ObjectMeta pod)
  | ServicesCreate _ svc => meta_Name (svc_ObjectMeta svc)
  | EndpointsCreate _ eps => meta_Name (eps_ObjectMeta eps)
  | PodsDelete _ name | ServicesDelete _ name => name
  end.

(** Number of calls of a cycle that the environment fails. *)
Definition failed (env : Env) (ops : list api_op) : nat :=
  length (List.filter (λ op, if api_err env op is Some _ then true else false) ops).

(** What the two verification phases of a cycle leave between the
    worlds [w] and [w']: [v1], [d1] are [verified] and [elapsed] at the
    end of the first loop, [v2], [d2] at the end of the second. *)
Definition two_phases (tmo : Duration) (w w' : World) (v1 v2 : bool)
    (d1 d2 : Duration) : Prop :=
  ValidationFailCount w'
    = Inc_unless v2 "delete" (Inc_unless v1 "add" (ValidationFailCount w))
  ∧ ValidationDuration w'
    = Observe_if v2 "delete" d2 (Observe_if v1 "add" d1 (ValidationDuration w))
  ∧ clock w <= clock w'
  ∧ Z.of_nat (dns_polls w' - dns_polls w) <= 2 * max_polls tmo
  ∧ (dns_polls w <= dns_polls w')%nat
  ∧ (0 < tmo → (dns_polls w + 2 <= dns_polls w')%nat)
  ∧ 0 <= d1 ∧ (v1 = true → d1 < tmo)
  ∧ 0 <= d2 ∧ (v2 = true → d2 < tmo)
  ∧ (tmo <= 0 → v1 = false ∧ v2 = false
                ∧ clock w' = clock w ∧ dns_polls w' = dns_polls w).

(** The metric of one phase moved in exactly one of its two ways. *)
Definition one_outcome (tmo : Duration) (w w' : World) (action : string) : Prop :=
  (count (ValidationFailCount w') action = S (count (ValidationFailCount w) action)
   ∧ observed (ValidationDuration w') action = observed (ValidationDuration w) action)
  ∨ (count (ValidationFailCount w') action = count (ValidationFailCount w) action
     ∧ ∃ d, observed (ValidationDuration w') action
            = observed (ValidationDuration w) action ++ [d]
            ∧ 0 <= d < tmo).

(** A sample cluster configuration. *)
Definition kube_ok : KubeEnv :=
  {| InClusterConfig := inl {| rc_Host := "https://10.96.0.1:443";
                               rc_BearerToken := "token";
                               rc_ContentType := "" |};
     NewForConfig := λ c, (Some {| cs_config := c |}, None) |}.


(** ** Proof steps *)

(** Run the verification phase at the head of the goal, given the lemma
    [frame] that tells what such a phase leaves behind. *)
Ltac step_validate frame :=
  match goal with
  | |- context [validate ?e ?c ?n ?t ?a ?W] =>
      let c1 := fresh "c" in let p1 := fresh "p" in
      let vf1 := fresh "vf" in let vd1 := fresh "vd" in
      destruct (frame e c n t a W) as (c1 & p1 & vf1 & vd1 & ->);
      unfold set_validation; simpl
  end.

(** The same, keeping what the phase recorded and its bounds; [frame]
    is the lemma that states them. *)
Ltac step_outcome frame :=
  match goal with
  | |- context [validate ?e ?c ?n ?t ?a ?W] =>
      let v := fresh "v" in let d := fresh "d" in
      let c1 := fresh "c" in let p1 := fresh "p" in
      let Hc := fresh "Hclock" in let Hp := fresh "Hpolls" in
      let Hb := fresh "Hbound" in let Hs := fresh "Hsome" in
      let Hd := fresh "Hnonneg" in let Hl := fresh "Hlt" in
      let Hz := fresh "Hzero" in
      destruct (frame e c n t a W)
        as (v & d & c1 & p1 & -> & Hc & Hp & Hb & Hs & Hd & Hl & Hz);
      cbn [clock dns_polls rng_pos OperationCount ValidationFailCount
           ValidationDuration log_out api_calls] in *
  end.


(** * Properties *)

Lemma set_rng_id w : set_rng (rng_pos w) w = w.
Proof. by destruct w. Qed.

Lemma advance_id w : advance (clock w) (dns_polls w) w = w.
Proof. by destruct w. Qed.

Lemma set_rng_set_rng p q w : set_rng p (set_rng q w) = set_rng p w.
Proof. reflexivity. Qed.

Lemma advance_advance c p c' p' w : advance c p (advance c' p' w) = advance c p w.
Proof. reflexivity. Qed.

(** ** The name generator *)

Lemma get_in_range (s : string) (n : nat) :
  (n < String.length s)%nat → ∃ c, String.get n s = Some c ∧ c ∈ chars s.
Proof.
  revert n. induction s as [|a s IH]; intros n Hn; simpl in *; [lia|].
  destruct n as [|n].
  - exists a. split; [done | left].
  - destruct (IH n) as (c & Hc & Hin); [lia|].
    exists c. split; [done | by right].
Qed.

Lemma letterBytes_length : String.length letterBytes = 36%nat.
Proof. reflexivity. Qed.

Lemma letterBytes_lower_alnum c : c ∈ chars letterBytes → is_lower_alnum c = true.
Proof.
  intros Hc. assert (H : Forall (λ c, is_lower_alnum c = true) (chars letterBytes)).
  { by repeat constructor. }
  rewrite Forall_forall in H. by apply H.
Qed.

(** One draw and one indexing: never a panic, always a letter of the
    alphabet. *)
Lemma draw_letter env w :
  ∃ c, (i <- Intn env (len letterBytes) ;; index letterBytes i) w
         = Ok c (set_rng (S (rng_pos w)) w)
       ∧ c ∈ chars letterBytes.
Proof.
  pose proof (Z.mod_pos_bound (rand_src env (rng_pos w)) 36 ltac:(lia)) as Hr.
  destruct (get_in_range letterBytes (Z.to_nat (rand_src env (rng_pos w) `mod` 36)))
    as (c & Hc & Hin).
  { rewrite letterBytes_length. lia. }
  exists c. split; [|done].
  unfold bind, Intn, index. change (len letterBytes) with 36.
  change (36 <=? 0) with false. cbv beta iota.
  destruct (Z.ltb_spec (rand_src env (rng_pos w) `mod` 36) 0) as [?|_]; [lia|].
  by rewrite Hc.
Qed.

Lemma fill_bytes_ok env (n : nat) w :
  ∃ s, fill_bytes env n w = Ok s (set_rng (rng_pos w + n) w)
       ∧ String.length s = n
       ∧ Forall (λ c, c ∈ chars letterBytes) (chars s).
Proof.
  revert w. induction n as [|n IH]; intros w.
  - exists EmptyString. simpl. unfold ret.
    rewrite Nat.add_0_r, set_rng_id. by repeat split.
  - destruct (draw_letter env w) as (c & Hc & Hin).
    destruct (IH (set_rng (S (rng_pos w)) w)) as (s & Hs & Hlen & Hall).
    exists (String c s). split; [|split].
    + simpl fill_bytes. unfold bind in *.
      destruct (Intn env (len letterBytes) w) as [i w1| |]; try discriminate.
      rewrite Hc, Hs. unfold ret. simpl. f_equal. unfold set_rng. simpl.
      f_equal. lia.
    + simpl. by rewrite Hlen.
    + simpl. by constructor.
Qed.

Lemma length_append (s t : string) :
  String.length (s +:+ t) = (String.length s + String.length t)%nat.
Proof. induction s as [|a s IH]; simpl; [reflexivity | by rewrite IH]. Qed.

Lemma chars_append (s t : string) : chars (s +:+ t) = chars s ++ chars t.
Proof. induction s as [|a s IH]; simpl; [reflexivity | by rewrite IH]. Qed.

(** [new_identity] always returns, and what it returns. *)
Lemma new_identity_ok env w :
  ∃ s, new_identity env w = Ok ("kubernoisy-" +:+ s) (set_rng (rng_pos w + 18) w)
       ∧ String.length s = 18%nat
       ∧ Forall (λ c, c ∈ chars letterBytes) (chars s).
Proof.
  destruct (fill_bytes_ok env 18 w) as (s & Hs & Hlen & Hall).
  exists s. split; [|done].
  unfold new_identity, bind, RandStringBytes. change (18 <? 0) with false.
  change (Z.to_nat 18) with 18%nat. cbv iota. by rewrite Hs.
Qed.

(** C9. [RandStringBytes n], for [n >= 0], returns a string of exactly
    [n] characters, each one of the 36 characters of
    "0123456789abcdefghijklmnopqrstuvwxyz"; hence every cycle identity is
    "kubernoisy-" followed by 18 lower-case alphanumeric characters, 29
    characters in all. *)
Theorem RandStringBytes_alphabet :
  letterBytes = "0123456789abcdefghijklmnopqrstuvwxyz" ∧
  (∀ env (n : Z) w, 0 <= n →
     ∃ s w', RandStringBytes env n w = Ok s w'
             ∧ len s = n
             ∧ Forall (λ c, c ∈ chars letterBytes) (chars s)) ∧
  (∀ env w,
     ∃ s w', new_identity env w = Ok ("kubernoisy-" +:+ s) w'
             ∧ String.length s = 18%nat
             ∧ Forall (λ c, is_lower_alnum c = true) (chars s)
             ∧ String.length ("kubernoisy-" +:+ s) = 29%nat).
Proof.
  split; [reflexivity|]. split.
  - intros env n w Hn.
    destruct (fill_bytes_ok env (Z.to_nat n) w) as (s & Hs & Hlen & Hall).
    exists s, (set_rng (rng_pos w + Z.to_nat n) w).
    unfold RandStringBytes. destruct (Z.ltb_spec n 0) as [?|_]; [lia|].
    repeat split; [done | unfold len; lia | done].
  - intros env w.
    destruct (new_identity_ok env w) as (s & Hs & Hlen & Hall).
    exists s, (set_rng (rng_pos w + 18) w). repeat split; [done..| |].
    + eapply Forall_impl; [apply Hall|]. intros c. apply letterBytes_lower_alnum.
    + rewrite length_append, Hlen. reflexivity.
Qed.

Lemma RandStringBytes_alphabet_witness :
  0 <= 3 ∧
  ∃ s w', RandStringBytes env_ok 3 world0 = Ok s w'
          ∧ len s = 3
          ∧ Forall (λ c, c ∈ chars letterBytes) (chars s).
Proof.
  split; [lia|].
  apply (proj1 (proj2 RandStringBytes_alphabet) env_ok 3 world0). lia.
Defined.

Example RandStringBytes_3 :
  RandStringBytes env_ok 3 world0 = Ok "07e" (set_rng 3 world0).
Proof. reflexivity. Qed.

Example RandStringBytes_negative :
  RandStringBytes env_ok (-1) world0 = Panic "makeslice: len out of range".
Proof. reflexivity. Qed.

(** ** The convergence loops *)

Lemma issue_time_ge env c p k : c + Z.of_nat k * Second <= issue_time env c p k.
Proof.
  revert c p. induction k as [|k IH]; intros c p; simpl issue_time; [lia|].
  specialize (IH (c + Z.of_N (dns_latency env p) + Second) (S p)). lia.
Qed.

Lemma issue_time_last env c p k :
  issue_time env c p (S k)
  = issue_time env c p k + Z.of_N (dns_latency env (p + k)) + Second.
Proof.
  revert c p. induction k as [|k IH]; intros c p.
  - simpl. by rewrite Nat.add_0_r.
  - change (issue_time env c p (S (S k)))
      with (issue_time env (c + Z.of_N (dns_latency env p) + Second) (S p) (S k)).
    rewrite IH. simpl issue_time. by rewrite Nat.add_succ_r.
Qed.

Lemma issue_time_mono env c p i k :
  (i <= k)%nat → issue_time env c p i <= issue_time env c p k.
Proof.
  induction 1 as [|k _ IH]; [lia|]. rewrite issue_time_last. unfold Second. lia.
Qed.

Lemma issue_time_no_latency env c p k :
  (∀ n, dns_latency env n = 0%N) →
  issue_time env c p k = c + Z.of_nat k * Second.
Proof.
  intros Hz. revert c p. induction k as [|k IH]; intros c p; simpl issue_time; [lia|].
  rewrite IH, Hz. lia.
Qed.

(** One turn of the loop, written out. *)
Lemma poll_loop_step env fuel cond name tmo start elapsed w :
  poll_loop env (S fuel) cond name tmo start elapsed w =
  if clock w - start <? tmo then
    if cond (dns_answer env name (dns_polls w)) then
      Ok (true, elapsed)
         (advance (clock w + Z.of_N (dns_latency env (dns_polls w))) (S (dns_polls w)) w)
    else
      poll_loop env fuel cond name tmo start
        (clock w + Z.of_N (dns_latency env (dns_polls w)) + Second - start)
        (advance (clock w + Z.of_N (dns_latency env (dns_polls w)) + Second)
                 (S (dns_polls w)) w)
  else Ok (false, elapsed) w.
Proof.
  simpl. unfold bind, Since. destruct (clock w - start <? tmo); [|reflexivity].
  unfold LookupIP. destruct (cond (dns_answer env name (dns_polls w))); reflexivity.
Qed.

(** The loop always leaves, and how: after [k] polls that did not
    converge it either converges on the next one, issued before the
    timeout, or finds the timeout reached at its guard. *)
Lemma poll_loop_run env cond name tmo start fuel : ∀ elapsed w,
  tmo - (clock w - start) <= (Z.of_nat fuel - 1) * Second → (1 <= fuel)%nat →
  ∃ (v : bool) (k : nat),
    poll_loop env fuel cond name tmo start elapsed w =
      Ok (v, match k with
             | O => elapsed
             | S _ => issue_time env (clock w) (dns_polls w) k - start
             end)
         (advance (if v then issue_time env (clock w) (dns_polls w) k
                             + Z.of_N (dns_latency env (dns_polls w + k))
                   else issue_time env (clock w) (dns_polls w) k)
                  (if v then S (dns_polls w + k) else dns_polls w + k)%nat w)
    ∧ (∀ i, (i < k)%nat → cond (dns_answer env name (dns_polls w + i)) = false)
    ∧ (∀ i, (i < k)%nat → issue_time env (clock w) (dns_polls w) i - start < tmo)
    ∧ (if v then cond (dns_answer env name (dns_polls w + k)) = true
                 ∧ issue_time env (clock w) (dns_polls w) k - start < tmo
       else tmo <= issue_time env (clock w) (dns_polls w) k - start).
Proof.
  induction fuel as [|fuel IH]; intros elapsed w Hfuel Hpos; [lia|].
  rewrite poll_loop_step.
  destruct (Z.ltb_spec (clock w - start) tmo) as [Hlt|Hge].
  - destruct (cond (dns_answer env name (dns_polls w))) eqn:Hc.
    + exists true, O. simpl issue_time. rewrite Nat.add_0_r.
      repeat split; [intros; lia | intros; lia | done | done].
    + set (w1 := advance (clock w + Z.of_N (dns_latency env (dns_polls w)) + Second)
                         (S (dns_polls w)) w).
      destruct (IH (clock w1 - start) w1) as (v & k & Hrun & Hfail & Hearly & Hend).
      { subst w1. simpl clock. unfold Second in *. lia. }
      { unfold Second in *. lia. }
      exists v, (S k). split; [|split; [|split]].
      * subst w1. simpl clock in *. simpl dns_polls in *.
        rewrite Hrun. rewrite advance_advance.
        replace (S (dns_polls w) + k)%nat with (dns_polls w + S k)%nat by lia.
        simpl issue_time. destruct k; reflexivity.
      * intros [|i] Hi.
        -- by rewrite Nat.add_0_r.
        -- replace (dns_polls w + S i)%nat with (dns_polls w1 + i)%nat
             by (subst w1; simpl; lia).
           apply Hfail. lia.
      * intros [|i] Hi; [exact Hlt|].
        change (issue_time env (clock w) (dns_polls w) (S i))
          with (issue_time env (clock w1) (dns_polls w1) i).
        apply Hearly. lia.
      * subst w1. simpl clock in *. simpl dns_polls in *.
        replace (dns_polls w + S k)%nat with (S (dns_polls w) + k)%nat by lia.
        exact Hend.
  - exists false, O. simpl issue_time. rewrite Nat.add_0_r, advance_id.
    repeat split; [intros; lia | intros; lia | done].
Qed.

Lemma loop_fuel_enough tmo : tmo <= (Z.of_nat (loop_fuel tmo) - 1) * Second ∧ (1 <= loop_fuel tmo)%nat.
Proof.
  unfold loop_fuel. split; [|lia].
  destruct (Z.le_gt_cases 0 tmo) as [Hnn|Hneg].
  - pose proof (Z.div_pos tmo Second Hnn ltac:(unfold Second; lia)) as Hq.
    pose proof (Z.mod_pos_bound tmo Second ltac:(unfold Second; lia)) as Hm.
    pose proof (Z.div_mod tmo Second ltac:(unfold Second; lia)) as Hd.
    rewrite Nat2Z.inj_add, Z2Nat.id by done. lia.
  - assert (Hq : tmo / Second < 0).
    { apply Z.div_lt_upper_bound; unfold Second; lia. }
    rewrite Z2Nat.nonpos by lia. unfold Second. simpl. lia.
Qed.

(** [verify] never runs out of fuel, never panics, and touches nothing
    but the clock and the poll count.  With [elapsed] starting at 0 and
    [start] at the clock, the value of [elapsed] at exit is the offset of
    the last poll issued, whatever [k]. *)
Lemma verify_run env cond name tmo w :
  ∃ (v : bool) (k : nat),
    verify env cond name tmo w =
      Ok (v, issue_time env (clock w) (dns_polls w) k - clock w)
         (advance (if v then issue_time env (clock w) (dns_polls w) k
                             + Z.of_N (dns_latency env (dns_polls w + k))
                   else issue_time env (clock w) (dns_polls w) k)
                  (if v then S (dns_polls w + k) else dns_polls w + k)%nat w)
    ∧ (∀ i, (i < k)%nat → cond (dns_answer env name (dns_polls w + i)) = false)
    ∧ (∀ i, (i < k)%nat → issue_time env (clock w) (dns_polls w) i - clock w < tmo)
    ∧ (if v then cond (dns_answer env name (dns_polls w + k)) = true
                 ∧ issue_time env (clock w) (dns_polls w) k - clock w < tmo
       else tmo <= issue_time env (clock w) (dns_polls w) k - clock w).
Proof.
  unfold verify, bind, Now.
  destruct (loop_fuel_enough tmo) as [Hf Hp].
  destruct (poll_loop_run env cond name tmo (clock w) (loop_fuel tmo) 0 w)
    as (v & k & Hrun & Hrest); [lia | done |].
  exists v, k. split; [|exact Hrest].
  rewrite Hrun. destruct k; [|reflexivity]. simpl issue_time. do 2 f_equal. lia.
Qed.

(** The loop converges at the first poll whose answer meets the
    condition, provided that poll is issued before the timeout. *)
Lemma verify_converges env cond name tmo w k :
  (∀ i, (i < k)%nat → cond (dns_answer env name (dns_polls w + i)) = false) →
  cond (dns_answer env name (dns_polls w + k)) = true →
  issue_time env (clock w) (dns_polls w) k - clock w < tmo →
  verify env cond name tmo w =
    Ok (true, issue_time env (clock w) (dns_polls w) k - clock w)
       (advance (issue_time env (clock w) (dns_polls w) k
                 + Z.of_N (dns_latency env (dns_polls w + k)))
                (S (dns_polls w + k)) w).
Proof.
  intros Hfail Hhit Htime.
  destruct (verify_run env cond name tmo w) as (v & k' & Hrun & Hfail' & _ & Hend).
  assert (Hle : (k' <= k)%nat).
  { destruct (Nat.le_gt_cases k' k) as [?|Hgt]; [done|].
    specialize (Hfail' k Hgt). congruence. }
  destruct v.
  - destruct Hend as [Hhit' _].
    assert (k' = k) as ->; [|exact Hrun].
    destruct (Nat.eq_dec k' k) as [?|Hne]; [done|].
    specialize (Hfail k' ltac:(lia)). congruence.
  - pose proof (issue_time_mono env (clock w) (dns_polls w) k' k Hle). lia.
Qed.

(** When no answer ever meets the condition the loop leaves by its
    guard, at the first guard evaluated at or after the timeout. *)
Lemma verify_times_out env cond name tmo w :
  (∀ i, cond (dns_answer env name (dns_polls w + i)) = false) →
  ∃ k, verify env cond name tmo w =
         Ok (false, issue_time env (clock w) (dns_polls w) k - clock w)
            (advance (issue_time env (clock w) (dns_polls w) k) (dns_polls w + k) w)
       ∧ tmo <= issue_time env (clock w) (dns_polls w) k - clock w
       ∧ (∀ i, (i < k)%nat → issue_time env (clock w) (dns_polls w) i - clock w < tmo).
Proof.
  intros Hnever.
  destruct (verify_run env cond name tmo w) as (v & k & Hrun & _ & Hearly & Hend).
  destruct v.
  - destruct Hend as [Hhit _]. rewrite Hnever in Hhit. discriminate.
  - by exists k.
Qed.

(** C5. Presence verification ([resolves_to ip] in one revision,
    [resolves] in the other).  If the resolver first gives a satisfying
    answer at poll [k], and that poll is issued before the timeout, the
    loop ends with [verified = true] and [elapsed] equal to the offset at
    which poll [k] was issued: at least [k] seconds, and exactly [k]
    seconds when lookups take no time.  If the resolver never gives a
    satisfying answer, the loop ends with [verified = false] at the first
    guard at or after the timeout, less than one second and one lookup
    past it. *)
Theorem presence_verification :
  (∀ env cond name tmo w k,
     cond = resolves_to SvcEps.ip ∨ cond = resolves →
     (∀ i, (i < k)%nat → cond (dns_answer env name (dns_polls w + i)) = false) →
     cond (dns_answer env name (dns_polls w + k)) = true →
     issue_time env (clock w) (dns_polls w) k - clock w < tmo →
     ∃ elapsed w',
       verify env cond name tmo w = Ok (true, elapsed) w'
       ∧ elapsed = issue_time env (clock w) (dns_polls w) k - clock w
       ∧ Z.of_nat k * Second <= elapsed < tmo
       ∧ ((∀ n, dns_latency env n = 0%N) → elapsed = Z.of_nat k * Second)) ∧
  (∀ env cond name tmo w,
     cond = resolves_to SvcEps.ip ∨ cond = resolves →
     (∀ i, cond (dns_answer env name (dns_polls w + i)) = false) →
     ∃ elapsed w',
       verify env cond name tmo w = Ok (false, elapsed) w'
       ∧ elapsed = clock w' - clock w
       ∧ tmo <= elapsed
       ∧ (0 < tmo →
          ∃ last, elapsed < tmo + Z.of_N (dns_latency env last) + Second)
       ∧ ((∀ n, dns_latency env n = 0%N) → 0 < tmo → elapsed < tmo + Second)).
Proof.
  split.
  - intros env cond name tmo w k _ Hfail Hhit Htime.
    eexists _, _. split; [by apply verify_converges|].
    split; [reflexivity|]. split.
    + pose proof (issue_time_ge env (clock w) (dns_polls w) k). lia.
    + intros Hz. rewrite issue_time_no_latency by done. lia.
  - intros env cond name tmo w _ Hnever.
    destruct (verify_times_out env cond name tmo w Hnever) as (k & Hrun & Hge & Hearly).
    eexists _, _. split; [exact Hrun|]. simpl clock.
    split; [reflexivity|]. split; [done|].
    assert (Hlast : 0 < tmo → ∃ j, k = S j
              ∧ issue_time env (clock w) (dns_polls w) k - clock w
                < tmo + Z.of_N (dns_latency env (dns_polls w + j)) + Second).
    { intros Hpos. destruct k as [|j]; [simpl in Hge; lia|].
      exists j. split; [done|]. rewrite issue_time_last.
      specialize (Hearly j ltac:(lia)). lia. }
    split.
    + intros Hpos. destruct (Hlast Hpos) as (j & _ & Hj). by eexists.
    + intros Hz Hpos. destruct (Hlast Hpos) as (j & _ & Hj).
      rewrite Hz in Hj. lia.
Qed.

Lemma presence_verification_witness :
  (∃ elapsed w',
     verify env_ok (resolves_to SvcEps.ip) "kubernoisy-x" (30 * Second) world0
       = Ok (true, elapsed) w'
     ∧ elapsed = issue_time env_ok (clock world0) (dns_polls world0) 2 - clock world0
     ∧ Z.of_nat 2 * Second <= elapsed < 30 * Second
     ∧ ((∀ n, dns_latency env_ok n = 0%N) → elapsed = Z.of_nat 2 * Second)) ∧
  (∃ elapsed w',
     verify env_fail resolves "kubernoisy-x" (30 * Second) world0 = Ok (false, elapsed) w'
     ∧ elapsed = clock w' - clock world0
     ∧ 30 * Second <= elapsed
     ∧ (0 < 30 * Second →
        ∃ last, elapsed < 30 * Second + Z.of_N (dns_latency env_fail last) + Second)
     ∧ ((∀ n, dns_latency env_fail n = 0%N) → 0 < 30 * Second →
        elapsed < 30 * Second + Second)).
Proof.
  split.
  - apply (proj1 presence_verification env_ok (resolves_to SvcEps.ip)
             "kubernoisy-x" (30 * Second) world0 2%nat).
    + left. reflexivity.
    + intros [|[|i]] Hi; [reflexivity | reflexivity | lia].
    + reflexivity.
    + reflexivity.
  - apply (proj2 presence_verification env_fail resolves "kubernoisy-x"
             (30 * Second) world0).
    + right. reflexivity.
    + intros [|i]; reflexivity.
Defined.

Example presence_after_two_polls :
  verify env_ok (resolves_to SvcEps.ip) "kubernoisy-x" (30 * Second) world0
  = Ok (true, 2004000000) (advance 2006000000 3 world0).
Proof. reflexivity. Qed.

Example presence_never :
  verify env_fail resolves "kubernoisy-x" (3 * Second) world0
  = Ok (false, 3 * Second) (advance (3 * Second) 3 world0).
Proof. reflexivity. Qed.

Example presence_wrong_address :
  verify env_stuck (resolves_to "10.0.0.1") "kubernoisy-x" (2 * Second + 1) world0
  = Ok (false, 3 * Second) (advance (3 * Second) 3 world0).
Proof. reflexivity. Qed.

(** ** [strings.Contains] *)

Lemma append_cons a (p t : string) : String a p +:+ t = String a (p +:+ t).
Proof. reflexivity. Qed.

Lemma has_prefix_spec p s : has_prefix p s = true ↔ ∃ post, s = p +:+ post.
Proof.
  revert s. induction p as [|a p IH]; intros s; simpl.
  - split; [intros _; by exists s | done].
  - destruct s as [|b s].
    + split; [done | intros [post Hpost]; discriminate].
    + destruct (Ascii.eqb_spec a b) as [->|Hne].
      * rewrite IH. split; intros [post Hpost]; exists post.
        -- by rewrite append_cons, Hpost.
        -- rewrite append_cons in Hpost. congruence.
      * split; [done | intros [post Hpost]; rewrite append_cons in Hpost; congruence].
Qed.

Lemma Contains_unfold s substr :
  Contains s substr =
  if has_prefix substr s then true
  else match s with
       | EmptyString => false
       | String _ s' => Contains s' substr
       end.
Proof. by destruct s. Qed.

(** [Contains s substr] holds exactly when [substr] occurs in [s]. *)
Lemma Contains_spec s substr :
  Contains s substr = true ↔ ∃ pre post, s = pre +:+ substr +:+ post.
Proof.
  split.
  - induction s as [|a s IH]; rewrite Contains_unfold;
      destruct (has_prefix substr _) eqn:Hp.
    + intros _. apply has_prefix_spec in Hp as [post ->]. by exists EmptyString, post.
    + done.
    + intros _. apply has_prefix_spec in Hp as [post ->]. by exists EmptyString, post.
    + intros H. destruct (IH H) as (pre & post & ->).
      by exists (String a pre), post.
  - intros (pre & post & ->). induction pre as [|a pre IH]; rewrite Contains_unfold.
    + replace (has_prefix substr (EmptyString +:+ substr +:+ post)) with true; [done|].
      symmetry. apply has_prefix_spec. by exists post.
    + destruct (has_prefix substr _); [done|]. exact IH.
Qed.

Example Contains_not_found :
  Contains "lookup kubernoisy-abc on 10.96.0.10:53: no such host" "no such host" = true.
Proof. reflexivity. Qed.

Example Contains_other_error :
  Contains "lookup kubernoisy-abc on 10.96.0.10:53: server misbehaving" "no such host" = false.
Proof. reflexivity. Qed.

(** C6. Absence verification.  An answer that is a successful resolution,
    or an error whose message does not contain "no such host", does not
    meet the condition; on such an answer the loop neither leaves nor
    fails: it sleeps one second, refreshes [elapsed] and goes back to its
    guard.  The loop as a whole always ends, with [verified = true] only
    on an error that contains "no such host", and with [verified = false]
    only once the timeout is reached; every earlier poll was of the first
    kind. *)
Theorem absence_keeps_polling :
  (∀ r, ((∃ ips, r = Resolved ips)
         ∨ (∃ msg, r = LookupError msg ∧ Contains msg "no such host" = false))
        ↔ not_found r = false) ∧
  (∀ env fuel name tmo start elapsed w,
     clock w - start < tmo →
     not_found (dns_answer env name (dns_polls w)) = false →
     poll_loop env (S fuel) not_found name tmo start elapsed w =
     poll_loop env fuel not_found name tmo start
       (clock w + Z.of_N (dns_latency env (dns_polls w)) + Second - start)
       (advance (clock w + Z.of_N (dns_latency env (dns_polls w)) + Second)
                (S (dns_polls w)) w)) ∧
  (∀ env name tmo w,
     ∃ (v : bool) elapsed w' (k : nat),
       verify env not_found name tmo w = Ok (v, elapsed) w'
       ∧ (∀ i, (i < k)%nat → not_found (dns_answer env name (dns_polls w + i)) = false)
       ∧ dns_polls w' = (dns_polls w + k + (if v then 1 else 0))%nat
       ∧ (if v then ∃ msg, dns_answer env name (dns_polls w + k) = LookupError msg
                           ∧ Contains msg "no such host" = true
          else tmo <= clock w' - clock w)).
Proof.
  split; [|split].
  - intros r. split.
    + intros [[ips ->]|(msg & -> & Hc)]; [reflexivity | exact Hc].
    + destruct r as [ips|msg]; simpl; [left; by eexists | right; by eexists].
  - intros env fuel name tmo start elapsed w Hlt Hnf.
    rewrite poll_loop_step. rewrite Hnf.
    by destruct (Z.ltb_spec (clock w - start) tmo) as [_|?]; [|lia].
  - intros env name tmo w.
    destruct (verify_run env not_found name tmo w) as (v & k & Hrun & Hfail & _ & Hend).
    eexists v, _, _, k. split; [exact Hrun|]. split; [exact Hfail|].
    destruct v; simpl dns_polls; simpl clock.
    + split; [lia|]. destruct Hend as [Hhit _].
      destruct (dns_answer env name (dns_polls w + k)) as [ips|msg]; [discriminate|].
      by exists msg.
    + split; [lia | exact Hend].
Qed.

Lemma absence_keeps_polling_witness :
  (not_found (LookupError "i/o timeout") = false) ∧
  poll_loop env_stuck 3 not_found "kubernoisy-x" (2 * Second) 0 0 world0 =
  poll_loop env_stuck 2 not_found "kubernoisy-x" (2 * Second) 0
    (clock world0 + Z.of_N (dns_latency env_stuck (dns_polls world0)) + Second - 0)
    (advance (clock world0 + Z.of_N (dns_latency env_stuck (dns_polls world0)) + Second)
             (S (dns_polls world0)) world0).
Proof.
  split.
  - apply (proj1 absence_keeps_polling (LookupError "i/o timeout")).
    right. exists "i/o timeout". split; reflexivity.
  - apply (proj1 (proj2 absence_keeps_polling) env_stuck 2%nat "kubernoisy-x"
             (2 * Second) 0 0 world0); reflexivity.
Defined.

Example absence_transient_then_gone :
  verify env_ok not_found "kubernoisy-x" (30 * Second)
    (advance 5000000000 1 world0)
  = Ok (true, 4008000000) (advance 9010000000 6 world0).
Proof. reflexivity. Qed.

Example absence_never :
  verify env_stuck not_found "kubernoisy-x" (2 * Second) world0
  = Ok (false, 2 * Second) (advance (2 * Second) 2 world0).
Proof. reflexivity. Qed.

(** ** What reaches the histogram *)

Lemma validate_converged env cond name tmo action w e w1 :
  verify env cond name tmo w = Ok (true, e) w1 →
  ∃ w', validate env cond name tmo action w = Ok tt w'
        ∧ observed (ValidationDuration w') action
          = observed (ValidationDuration w1) action ++ [e]
        ∧ ValidationFailCount w' = ValidationFailCount w1
        ∧ clock w' = clock w1.
Proof.
  intros Hv. unfold validate, bind. rewrite Hv. simpl.
  eexists. split; [reflexivity|]. simpl. unfold observed, Observe.
  by rewrite lookup_insert_eq.
Qed.

(** C10. In both loops [elapsed] is assigned only after the one-second
    sleep and before the guard of the next turn; a converging poll leaves
    it as it was.  So the value observed is 0 when the very first poll
    converges, and otherwise the time since [start] read at the end of
    the sleep before the converging poll; it is short of the moment that
    poll returned by the whole duration of the lookup. *)
Theorem elapsed_sampled_after_sleep :
  (∀ env fuel cond name tmo start elapsed w,
     poll_loop env (S fuel) cond name tmo start elapsed w =
     if clock w - start <? tmo then
       if cond (dns_answer env name (dns_polls w)) then
         Ok (true, elapsed)
            (advance (clock w + Z.of_N (dns_latency env (dns_polls w))) (S (dns_polls w)) w)
       else
         poll_loop env fuel cond name tmo start
           (clock w + Z.of_N (dns_latency env (dns_polls w)) + Second - start)
           (advance (clock w + Z.of_N (dns_latency env (dns_polls w)) + Second)
                    (S (dns_polls w)) w)
     else Ok (false, elapsed) w) ∧
  (∀ env cond name tmo action w k,
     cond = resolves_to SvcEps.ip ∨ cond = resolves ∨ cond = not_found →
     (∀ i, (i < k)%nat → cond (dns_answer env name (dns_polls w + i)) = false) →
     cond (dns_answer env name (dns_polls w + k)) = true →
     issue_time env (clock w) (dns_polls w) k - clock w < tmo →
     ∃ w' d,
       validate env cond name tmo action w = Ok tt w'
       ∧ observed (ValidationDuration w') action
         = observed (ValidationDuration w) action ++ [d]
       ∧ d = match k with
             | O => 0
             | S j => issue_time env (clock w) (dns_polls w) j
                      + Z.of_N (dns_latency env (dns_polls w + j)) + Second - clock w
             end
       ∧ clock w' - clock w = d + Z.of_N (dns_latency env (dns_polls w + k))).
Proof.
  split; [intros; apply poll_loop_step|].
  intros env cond name tmo action w k _ Hfail Hhit Htime.
  pose proof (verify_converges env cond name tmo w k Hfail Hhit Htime) as Hv.
  destruct (validate_converged env cond name tmo action w _ _ Hv)
    as (w' & Hrun & Hobs & _ & Hclock).
  exists w', (issue_time env (clock w) (dns_polls w) k - clock w).
  split; [exact Hrun|]. split; [exact Hobs|]. split.
  - destruct k as [|j]; [simpl; lia | by rewrite issue_time_last].
  - rewrite Hclock. simpl. lia.
Qed.

Lemma elapsed_sampled_after_sleep_witness :
  ∃ w' d,
    validate env_ok (resolves_to SvcEps.ip) "kubernoisy-x" (30 * Second) "add"
      (advance 0 2 world0) = Ok tt w'
    ∧ observed (ValidationDuration w') "add"
      = observed (ValidationDuration (advance 0 2 world0)) "add" ++ [d]
    ∧ d = 0
    ∧ clock w' - clock (advance 0 2 world0)
      = d + Z.of_N (dns_latency env_ok (dns_polls (advance 0 2 world0) + 0)).
Proof.
  apply (proj2 elapsed_sampled_after_sleep env_ok (resolves_to SvcEps.ip)
           "kubernoisy-x" (30 * Second) "add" (advance 0 2 world0) 0%nat).
  - left. reflexivity.
  - intros i Hi. lia.
  - reflexivity.
  - reflexivity.
Defined.

Example first_poll_observes_zero :
  ∃ w', validate env_ok (resolves_to SvcEps.ip) "kubernoisy-x" (30 * Second) "add"
          (advance 0 2 world0) = Ok tt w'
        ∧ observed (ValidationDuration w') "add" = [0]
        ∧ clock w' = 2000000.
Proof. eexists. repeat split. Qed.

Example third_poll_observes_sleep_end :
  ∃ w', validate env_ok (resolves_to SvcEps.ip) "kubernoisy-x" (30 * Second) "add"
          world0 = Ok tt w'
        ∧ observed (ValidationDuration w') "add" = [2004000000]
        ∧ clock w' = 2006000000.
Proof. eexists. repeat split. Qed.

(** ** Counters *)

Lemma count_Inc_eq {K} `{Countable K} (k : K) (m : gmap K nat) :
  count (Inc k m) k = S (count m k).
Proof. unfold count, Inc. by rewrite lookup_insert_eq. Qed.

Lemma count_Inc_ne {K} `{Countable K} (k k' : K) (m : gmap K nat) :
  k ≠ k' → count (Inc k m) k' = count m k'.
Proof. intros Hne. unfold count, Inc. by rewrite lookup_insert_ne. Qed.

Lemma count_Inc_on_success_eq {K} `{Countable K} err (k : K) (m : gmap K nat) :
  count (Inc_on_success err k m) k
  = (count m k + if err is None then 1 else 0)%nat.
Proof. destruct err; simpl; [lia | rewrite count_Inc_eq; lia]. Qed.

Lemma count_Inc_on_success_ne {K} `{Countable K} err (k k' : K) (m : gmap K nat) :
  k ≠ k' → count (Inc_on_success err k m) k' = count m k'.
Proof. intros Hne. destruct err; simpl; [done | by apply count_Inc_ne]. Qed.

(** ** One whole cycle *)

(** A verification phase always completes; it leaves the action
    counters, the log and the API untouched. *)
Lemma validate_frame env cond name tmo action w :
  ∃ c p vf vd, validate env cond name tmo action w = Ok tt (set_validation c p vf vd w).
Proof.
  destruct (verify_run env cond name tmo w) as (v & k & Hrun & _).
  unfold validate, bind. rewrite Hrun.
  destruct v; simpl; eexists _, _, _, _; reflexivity.
Qed.

Lemma SvcEps_cycle_body_run env f rando w :
  ∃ c p vf vd,
    SvcEps.cycle_body env f rando w =
    Ok tt
      {| clock := c; rng_pos := rng_pos w; dns_polls := p;
         OperationCount := svceps_counts (OperationCount w);
         ValidationFailCount := vf; ValidationDuration := vd;
         log_out := log_out w ++ svceps_lines env f rando;
         api_calls := api_calls w ++ svceps_calls f rando |}.
Proof.
  unfold SvcEps.cycle_body, svceps_lines, svceps_calls, svceps_counts, bind. simpl.
  destruct (api_err env OpCreateService), (api_err env OpCreateEndpoints),
    (api_err env OpDeleteService), (verbose f); simpl;
    step_validate validate_frame; step_validate validate_frame;
    eexists _, _, _, _; rewrite <- ?app_assoc, ?app_nil_r; reflexivity.
Qed.

Lemma PodSvc_cycle_body_run env f rando w :
  ∃ c p vf vd,
    PodSvc.cycle_body env f rando w =
    Ok tt
      {| clock := c; rng_pos := rng_pos w; dns_polls := p;
         OperationCount := podsvc_counts env (OperationCount w);
         ValidationFailCount := vf; ValidationDuration := vd;
         log_out := log_out w ++ podsvc_lines env f rando;
         api_calls := api_calls w ++ podsvc_calls f rando |}.
Proof.
  unfold PodSvc.cycle_body, podsvc_lines, podsvc_calls, podsvc_counts, bind. simpl.
  destruct (api_err env OpCreatePod), (api_err env OpCreateService),
    (api_err env OpDeletePod), (api_err env OpDeleteService), (verbose f); simpl;
    step_validate validate_frame; step_validate validate_frame;
    eexists _, _, _, _; rewrite <- ?app_assoc, ?app_nil_r; reflexivity.
Qed.

(** A cycle always runs to its end: it draws its identity, makes each of
    its calls once, in order, whatever they answer, and goes through both
    verification phases. *)
Lemma SvcEps_cycle_run env f w :
  ∃ s w',
    SvcEps.cycle env f w = Ok tt w'
    ∧ String.length s = 18%nat
    ∧ OperationCount w' = svceps_counts (OperationCount w)
    ∧ log_out w' = log_out w ++ svceps_lines env f ("kubernoisy-" +:+ s)
    ∧ api_calls w' = api_calls w ++ svceps_calls f ("kubernoisy-" +:+ s).
Proof.
  destruct (new_identity_ok env w) as (s & Hid & Hlen & _).
  destruct (SvcEps_cycle_body_run env f ("kubernoisy-" +:+ s)
              (set_rng (rng_pos w + 18) w)) as (c & p & vf & vd & Hbody).
  exists s. eexists. unfold SvcEps.cycle, bind. rewrite Hid, Hbody.
  by repeat split.
Qed.

Lemma PodSvc_cycle_run env f w :
  ∃ s w',
    PodSvc.cycle env f w = Ok tt w'
    ∧ String.length s = 18%nat
    ∧ OperationCount w' = podsvc_counts env (OperationCount w)
    ∧ log_out w' = log_out w ++ podsvc_lines env f ("kubernoisy-" +:+ s)
    ∧ api_calls w' = api_calls w ++ podsvc_calls f ("kubernoisy-" +:+ s).
Proof.
  destruct (new_identity_ok env w) as (s & Hid & Hlen & _).
  destruct (PodSvc_cycle_body_run env f ("kubernoisy-" +:+ s)
              (set_rng (rng_pos w + 18) w)) as (c & p & vf & vd & Hbody).
  exists s. eexists. unfold PodSvc.cycle, bind. rewrite Hid, Hbody.
  by repeat split.
Qed.

Lemma new_calls_app w w' l : api_calls w' = api_calls w ++ l → new_calls w w' = l.
Proof. intros Heq. unfold new_calls. by rewrite Heq, drop_app_length. Qed.

Lemma new_lines_app w w' l : log_out w' = log_out w ++ l → new_lines w w' = l.
Proof. intros Heq. unfold new_lines. by rewrite Heq, drop_app_length. Qed.

Lemma Ok_inj {A} (a b : A) (w w' : World) : Ok a w = Ok b w' → a = b ∧ w = w'.
Proof. intros [= -> ->]. done. Qed.

(** Counters after a cycle, label by label. *)
Lemma svceps_counts_at m op :
  op ∈ svceps_ops →
  count (svceps_counts m) (counter_key op) = S (count m (counter_key op)).
Proof.
  unfold svceps_ops, svceps_counts. rewrite !elem_of_cons, elem_of_nil.
  intros [->|[->|[->|[]]]]; simpl counter_key;
    repeat (rewrite count_Inc_eq || rewrite count_Inc_ne by discriminate);
    reflexivity.
Qed.

Lemma podsvc_counts_at env m op :
  op ∈ podsvc_ops →
  count (podsvc_counts env m) (counter_key op)
  = (count m (counter_key op) + if api_err env op is None then 1 else 0)%nat.
Proof.
  unfold podsvc_ops, podsvc_counts. rewrite !elem_of_cons, elem_of_nil.
  intros [->|[->|[->|[->|[]]]]]; simpl counter_key;
    repeat (rewrite count_Inc_on_success_eq
            || rewrite count_Inc_on_success_ne by discriminate);
    reflexivity.
Qed.

Lemma svceps_counts_other m key :
  (∀ op, op ∈ svceps_ops → counter_key op ≠ key) →
  count (svceps_counts m) key = count m key.
Proof.
  intros Hk. unfold svceps_counts.
  rewrite !count_Inc_ne; [done|..].
  - apply (Hk OpCreateService). unfold svceps_ops. set_solver.
  - apply (Hk OpCreateEndpoints). unfold svceps_ops. set_solver.
  - apply (Hk OpDeleteService). unfold svceps_ops. set_solver.
Qed.

Lemma podsvc_counts_other env m key :
  (∀ op, op ∈ podsvc_ops → counter_key op ≠ key) →
  count (podsvc_counts env m) key = count m key.
Proof.
  intros Hk. unfold podsvc_counts.
  rewrite !count_Inc_on_success_ne; [done|..].
  - apply (Hk OpCreatePod). unfold podsvc_ops. set_solver.
  - apply (Hk OpCreateService). unfold podsvc_ops. set_solver.
  - apply (Hk OpDeletePod). unfold podsvc_ops. set_solver.
  - apply (Hk OpDeleteService). unfold podsvc_ops. set_solver.
Qed.

(** C2, as amended. Neither revision mixes the two policies. In
    [src/main.go] every action counter (service add, endpoints add,
    service delete) is incremented unconditionally, also when the call
    returned an error; in [src/unnamed/part_001] every action counter
    (pod add, service add, pod delete, service delete) is incremented
    exactly when its call succeeded. *)
Theorem counting_policy_per_revision :
  (∀ op, op ∈ svceps_ops → counted_always SvcEps.cycle op) ∧
  (∀ op, op ∈ podsvc_ops → counted_on_success PodSvc.cycle op).
Proof.
  split; intros op Hop env f w.
  - destruct (SvcEps_cycle_run env f w) as (s & w' & Hrun & _ & Hcount & _).
    exists w'. split; [done|]. rewrite Hcount. by apply svceps_counts_at.
  - destruct (PodSvc_cycle_run env f w) as (s & w' & Hrun & _ & Hcount & _).
    exists w'. split; [done|]. rewrite Hcount. by apply podsvc_counts_at.
Qed.

Lemma counting_policy_per_revision_witness :
  counted_always SvcEps.cycle OpDeleteService ∧
  counted_on_success PodSvc.cycle OpCreateService.
Proof.
  split.
  - apply (proj1 counting_policy_per_revision OpDeleteService).
    unfold svceps_ops. set_solver.
  - apply (proj2 counting_policy_per_revision OpCreateService).
    unfold podsvc_ops. set_solver.
Defined.

(** C2, as stated, fails in both revisions: with every call failing,
    [src/main.go] still counts the failed service deletion, and
    [src/unnamed/part_001] does not count the failed service creation. *)
Lemma mixed_policy_counterexample :
  ¬ mixed_policy SvcEps.cycle svceps_ops ∧ ¬ mixed_policy PodSvc.cycle podsvc_ops.
Proof.
  split; intros Hmixed.
  - specialize (Hmixed OpDeleteService ltac:(unfold svceps_ops; set_solver)).
    destruct (Hmixed env_fail (flags_int 1 false) world0) as (w' & Hrun & Hcount).
    destruct (SvcEps_cycle_run env_fail (flags_int 1 false) world0)
      as (s & w'' & Hrun' & _ & Hcount' & _).
    rewrite Hrun in Hrun'. apply Ok_inj in Hrun' as [_ <-].
    rewrite Hcount' in Hcount.
    rewrite svceps_counts_at in Hcount by (unfold svceps_ops; set_solver).
    simpl in Hcount. lia.
  - specialize (Hmixed OpCreateService ltac:(unfold podsvc_ops; set_solver)).
    destruct (Hmixed env_fail (flags_float 1 false) world0) as (w' & Hrun & Hcount).
    destruct (PodSvc_cycle_run env_fail (flags_float 1 false) world0)
      as (s & w'' & Hrun' & _ & Hcount' & _).
    rewrite Hrun in Hrun'. apply Ok_inj in Hrun' as [_ <-].
    rewrite Hcount' in Hcount.
    rewrite podsvc_counts_at in Hcount by (unfold podsvc_ops; set_solver).
    simpl in Hcount. lia.
Qed.

Lemma svceps_calls_ops f rando : op_of <$> svceps_calls f rando = svceps_ops.
Proof. reflexivity. Qed.

Lemma podsvc_calls_ops f rando : op_of <$> podsvc_calls f rando = podsvc_ops.
Proof. reflexivity. Qed.

Lemma elem_of_calls_ops (call : api_call) (calls : list api_call) (l : list api_op) :
  op_of <$> calls = l → call ∈ calls → op_of call ∈ l.
Proof. intros <- Hin. by apply list_elem_of_fmap_2. Qed.

(** C3, as amended. Every cycle runs to completion.  In [src/main.go]
    each call attempted (service create, endpoints create, service
    delete) increments its own counter exactly once, whatever the call
    answers.  In [src/unnamed/part_001] each call attempted (pod create,
    service create, pod delete, service delete) increments its own
    counter exactly once when it succeeded and not at all when it failed.
    In both, no other action counter moves. *)
Theorem counts_per_attempt :
  one_count_per_attempt SvcEps.cycle ∧
  (∀ env f w, ∃ w',
     PodSvc.cycle env f w = Ok tt w'
     ∧ ∀ call, call ∈ new_calls w w' →
         count (OperationCount w') (counter_key (op_of call))
         = (count (OperationCount w) (counter_key (op_of call))
            + if api_err env (op_of call) is None then 1 else 0)%nat) ∧
  (∀ env f w, ∃ w',
     SvcEps.cycle env f w = Ok tt w'
     ∧ ∀ key, (∀ call, call ∈ new_calls w w' → counter_key (op_of call) ≠ key) →
         count (OperationCount w') key = count (OperationCount w) key) ∧
  (∀ env f w, ∃ w',
     PodSvc.cycle env f w = Ok tt w'
     ∧ ∀ key, (∀ call, call ∈ new_calls w w' → counter_key (op_of call) ≠ key) →
         count (OperationCount w') key = count (OperationCount w) key).
Proof.
  split; [|split; [|split]].
  - intros env f w.
    destruct (SvcEps_cycle_run env f w) as (s & w' & Hrun & _ & Hcount & _ & Hcalls).
    exists w'. split; [done|]. intros call Hin.
    rewrite (new_calls_app _ _ _ Hcalls) in Hin. rewrite Hcount.
    apply svceps_counts_at. by eapply elem_of_calls_ops; [apply svceps_calls_ops|].
  - intros env f w.
    destruct (PodSvc_cycle_run env f w) as (s & w' & Hrun & _ & Hcount & _ & Hcalls).
    exists w'. split; [done|]. intros call Hin.
    rewrite (new_calls_app _ _ _ Hcalls) in Hin. rewrite Hcount.
    apply podsvc_counts_at. by eapply elem_of_calls_ops; [apply podsvc_calls_ops|].
  - intros env f w.
    destruct (SvcEps_cycle_run env f w) as (s & w' & Hrun & _ & Hcount & _ & Hcalls).
    exists w'. split; [done|]. intros key Hkey.
    rewrite Hcount. apply svceps_counts_other. intros op Hop.
    rewrite (new_calls_app _ _ _ Hcalls) in Hkey.
    rewrite <- (svceps_calls_ops f ("kubernoisy-" +:+ s)) in Hop.
    apply list_elem_of_fmap in Hop as (call & -> & Hin). by apply Hkey.
  - intros env f w.
    destruct (PodSvc_cycle_run env f w) as (s & w' & Hrun & _ & Hcount & _ & Hcalls).
    exists w'. split; [done|]. intros key Hkey.
    rewrite Hcount. apply podsvc_counts_other. intros op Hop.
    rewrite (new_calls_app _ _ _ Hcalls) in Hkey.
    rewrite <- (podsvc_calls_ops f ("kubernoisy-" +:+ s)) in Hop.
    apply list_elem_of_fmap in Hop as (call & -> & Hin). by apply Hkey.
Qed.

Lemma counts_per_attempt_witness :
  ∃ w',
    PodSvc.cycle env_fail (flags_float 1 false) world0 = Ok tt w'
    ∧ ∀ call, call ∈ new_calls world0 w' →
        count (OperationCount w') (counter_key (op_of call))
        = (count (OperationCount world0) (counter_key (op_of call))
           + if api_err env_fail (op_of call) is None then 1 else 0)%nat.
Proof.
  apply (proj1 (proj2 counts_per_attempt) env_fail (flags_float 1 false) world0).
Defined.

(** C3, as stated, fails in [src/unnamed/part_001]: when the creation of
    the pod is attempted and fails, no pod/add counter is incremented. *)
Lemma one_count_per_attempt_counterexample : ¬ one_count_per_attempt PodSvc.cycle.
Proof.
  intros Hone.
  destruct (Hone env_fail (flags_float 1 false) world0) as (w' & Hrun & Hcount).
  destruct (PodSvc_cycle_run env_fail (flags_float 1 false) world0)
    as (s & w'' & Hrun' & _ & Hcount' & _ & Hcalls).
  rewrite Hrun in Hrun'. apply Ok_inj in Hrun' as [_ <-].
  specialize (Hcount (PodsCreate "load-test"
                        (PodSvc.mk_pod ("kubernoisy-" +:+ s) "load-test"))).
  rewrite (new_calls_app _ _ _ Hcalls) in Hcount.
  specialize (Hcount ltac:(left)).
  rewrite Hcount' in Hcount.
  rewrite podsvc_counts_at in Hcount by (unfold podsvc_ops; set_solver).
  simpl in Hcount. lia.
Qed.

(** ** Logging of failed calls *)

Lemma svceps_ops_NoDup : NoDup svceps_ops.
Proof.
  unfold svceps_ops.
  repeat (apply NoDup_cons; split;
          [rewrite ?elem_of_cons, elem_of_nil; intros Hin; intuition discriminate|]).
  apply NoDup_nil_2.
Qed.

Lemma podsvc_ops_NoDup : NoDup podsvc_ops.
Proof.
  unfold podsvc_ops.
  repeat (apply NoDup_cons; split;
          [rewrite ?elem_of_cons, elem_of_nil; intros Hin; intuition discriminate|]).
  apply NoDup_nil_2.
Qed.

(** C7, as amended. A failed delete call (and, in [src/main.go], a
    failed creation of the endpoints) is logged only when [verbose] is
    set.  A failed creation of the service (both revisions) or of the pod
    is logged always, also with [verbose] off.  In every case the cycle
    runs to its end and makes each of its calls exactly once, in the
    same order: nothing is retried. *)
Theorem failures_logged :
  (∀ env f w, ∃ s w',
     let rando := "kubernoisy-" +:+ s in
     let ns := namespace f in
     SvcEps.cycle env f w = Ok tt w'
     ∧ new_calls w w' = svceps_calls f rando
     ∧ NoDup (op_of <$> new_calls w w')
     ∧ new_lines w w' =
         failure_line "could not create service %v.%v: %v" rando ns
           (api_err env OpCreateService)
         ++ (if verbose f then
               failure_line "could not create endpoints %v.%v: %v" rando ns
                 (api_err env OpCreateEndpoints)
               ++ failure_line "could not delete service %v.%v: %v" rando ns
                    (api_err env OpDeleteService)
             else [])) ∧
  (∀ env f w, ∃ s w',
     let rando := "kubernoisy-" +:+ s in
     let ns := namespace f in
     PodSvc.cycle env f w = Ok tt w'
     ∧ new_calls w w' = podsvc_calls f rando
     ∧ NoDup (op_of <$> new_calls w w')
     ∧ new_lines w w' =
         failure_line "could not create pod %v.%v: %v" rando ns
           (api_err env OpCreatePod)
         ++ failure_line "could not create service %v.%v: %v" rando ns
              (api_err env OpCreateService)
         ++ (if verbose f then
               failure_line "could not delete pod pod.%v.%v: %v" rando ns
                 (api_err env OpDeletePod)
               ++ failure_line "could not delete service %v.%v: %v" rando ns
                    (api_err env OpDeleteService)
             else [])).
Proof.
  split; intros env f w.
  - destruct (SvcEps_cycle_run env f w) as (s & w' & Hrun & _ & _ & Hlog & Hcalls).
    exists s, w'. cbv zeta. split; [done|].
    rewrite (new_calls_app _ _ _ Hcalls), (new_lines_app _ _ _ Hlog).
    split; [done|]. split.
    + rewrite svceps_calls_ops. apply svceps_ops_NoDup.
    + unfold svceps_lines, when. destruct (verbose f); [reflexivity|].
      by rewrite !app_nil_r.
  - destruct (PodSvc_cycle_run env f w) as (s & w' & Hrun & _ & _ & Hlog & Hcalls).
    exists s, w'. cbv zeta. split; [done|].
    rewrite (new_calls_app _ _ _ Hcalls), (new_lines_app _ _ _ Hlog).
    split; [done|]. split.
    + rewrite podsvc_calls_ops. apply podsvc_ops_NoDup.
    + unfold podsvc_lines, when. destruct (verbose f); [reflexivity|].
      by rewrite !app_nil_r.
Qed.

(** C7, as stated, fails in both revisions: with [verbose] off and
    every call failing, a line is still logged for the service (and for
    the pod) that could not be created. *)
Lemma failures_silent_counterexample :
  ¬ failures_silent_unless_verbose SvcEps.cycle
  ∧ ¬ failures_silent_unless_verbose PodSvc.cycle.
Proof.
  split; intros Hsilent.
  - destruct (Hsilent env_fail (flags_int 1 false) world0) as (w' & Hrun & Hquiet & _).
    destruct (SvcEps_cycle_run env_fail (flags_int 1 false) world0)
      as (s & w'' & Hrun' & _ & _ & Hlog & _).
    rewrite Hrun in Hrun'. apply Ok_inj in Hrun' as [_ <-].
    specialize (Hquiet eq_refl). rewrite (new_lines_app _ _ _ Hlog) in Hquiet.
    discriminate Hquiet.
  - destruct (Hsilent env_fail (flags_float 1 false) world0) as (w' & Hrun & Hquiet & _).
    destruct (PodSvc_cycle_run env_fail (flags_float 1 false) world0)
      as (s & w'' & Hrun' & _ & _ & Hlog & _).
    rewrite Hrun in Hrun'. apply Ok_inj in Hrun' as [_ <-].
    specialize (Hquiet eq_refl). rewrite (new_lines_app _ _ _ Hlog) in Hquiet.
    discriminate Hquiet.
Qed.

Example svceps_all_fail_quiet :
  ∃ w', SvcEps.cycle env_fail (flags_int 1 false) world0 = Ok tt w'
        ∧ log_out w' =
            [{| ll_fmt := "could not create service %v.%v: %v";
                ll_args := [ArgS "kubernoisy-07elsz6dkry5cjqx4b"; ArgS "load-test";
                            ArgS "connection refused"] |}]
        ∧ count (OperationCount w') ("service", "add") = 1%nat
        ∧ count (OperationCount w') ("endpoints", "add") = 1%nat
        ∧ count (OperationCount w') ("service", "delete") = 1%nat
        ∧ count (ValidationFailCount w') "add" = 1%nat
        ∧ observed (ValidationDuration w') "delete" = [0].
Proof. eexists. split; [vm_compute; reflexivity|]. repeat split. Qed.

Example podsvc_all_fail_quiet :
  ∃ w', PodSvc.cycle env_fail (flags_float 1 false) world0 = Ok tt w'
        ∧ length (log_out w') = 2%nat
        ∧ length (api_calls w') = 4%nat
        ∧ OperationCount w' = ∅.
Proof. eexists. split; [vm_compute; reflexivity|]. repeat split. Qed.

(** ** The resource factory *)

(** C8. The two resource specifications of a cycle depend on nothing but
    the identity and the namespace: two runs of the cycle body on the
    same identity and the same namespace, under any two environments,
    flags and worlds, always complete and hand structurally equal
    specifications to the create calls, namely those built from the
    identity and the namespace alone, each named by the identity in that
    namespace. *)
Theorem resource_factory_deterministic :
  (∀ env env' (f f' : Flags Z) w w' rando,
     namespace f = namespace f' →
     ∃ v v',
       SvcEps.cycle_body env f rando w = Ok tt v
       ∧ SvcEps.cycle_body env' f' rando w' = Ok tt v'
       ∧ List.filter is_create (new_calls w v) = List.filter is_create (new_calls w' v')
       ∧ List.filter is_create (new_calls w v)
         = [ServicesCreate (namespace f) (SvcEps.mk_service rando (namespace f));
            EndpointsCreate (namespace f) (SvcEps.mk_endpoints rando (namespace f))]) ∧
  (∀ env env' (f f' : Flags Q) w w' rando,
     namespace f = namespace f' →
     ∃ v v',
       PodSvc.cycle_body env f rando w = Ok tt v
       ∧ PodSvc.cycle_body env' f' rando w' = Ok tt v'
       ∧ List.filter is_create (new_calls w v) = List.filter is_create (new_calls w' v')
       ∧ List.filter is_create (new_calls w v)
         = [PodsCreate (namespace f) (PodSvc.mk_pod rando (namespace f));
            ServicesCreate (namespace f) (PodSvc.mk_service rando (namespace f))]) ∧
  (∀ rando ns,
     let named (m : ObjectMeta) := meta_Name m = rando ∧ meta_Namespace m = ns in
     named (svc_ObjectMeta (SvcEps.mk_service rando ns))
     ∧ named (eps_ObjectMeta (SvcEps.mk_endpoints rando ns))
     ∧ named (pod_ObjectMeta (PodSvc.mk_pod rando ns))
     ∧ named (svc_ObjectMeta (PodSvc.mk_service rando ns))).
Proof.
  split; [|split].
  - intros env env' f f' w w' rando Hns.
    destruct (SvcEps_cycle_body_run env f rando w) as (c & p & vf & vd & Hrun).
    destruct (SvcEps_cycle_body_run env' f' rando w') as (c' & p' & vf' & vd' & Hrun').
    eexists _, _. split; [exact Hrun|]. split; [exact Hrun'|].
    rewrite (new_calls_app w _ (svceps_calls f rando)) by reflexivity.
    rewrite (new_calls_app w' _ (svceps_calls f' rando)) by reflexivity.
    unfold svceps_calls. rewrite <- Hns. split; reflexivity.
  - intros env env' f f' w w' rando Hns.
    destruct (PodSvc_cycle_body_run env f rando w) as (c & p & vf & vd & Hrun).
    destruct (PodSvc_cycle_body_run env' f' rando w') as (c' & p' & vf' & vd' & Hrun').
    eexists _, _. split; [exact Hrun|]. split; [exact Hrun'|].
    rewrite (new_calls_app w _ (podsvc_calls f rando)) by reflexivity.
    rewrite (new_calls_app w' _ (podsvc_calls f' rando)) by reflexivity.
    unfold podsvc_calls. rewrite <- Hns. split; reflexivity.
  - intros rando ns. cbv zeta. simpl. by repeat split.
Qed.

Lemma resource_factory_deterministic_witness :
  ∃ v v',
    SvcEps.cycle_body env_ok (flags_int 1 false) "kubernoisy-x" world0 = Ok tt v
    ∧ SvcEps.cycle_body env_fail (flags_int 5 true) "kubernoisy-x"
        (advance 42 7 world0) = Ok tt v'
    ∧ List.filter is_create (new_calls world0 v)
      = List.filter is_create (new_calls (advance 42 7 world0) v')
    ∧ List.filter is_create (new_calls world0 v)
      = [ServicesCreate (namespace (flags_int 1 false))
           (SvcEps.mk_service "kubernoisy-x" (namespace (flags_int 1 false)));
         EndpointsCreate (namespace (flags_int 1 false))
           (SvcEps.mk_endpoints "kubernoisy-x" (namespace (flags_int 1 false)))].
Proof.
  apply (proj1 resource_factory_deterministic env_ok env_fail
           (flags_int 1 false) (flags_int 5 true) world0 (advance 42 7 world0)
           "kubernoisy-x").
  reflexivity.
Defined.

(** ** Startup and the ticker *)

(** C4. With [ops <= 0] the whole of [main] is the fatal error "ops
    cannot be <= 0": no metrics server is started and no cycle is
    launched.  With [ops > 0] the check passes: [main] goes on to
    register for signals and to connect to the API, and, once connected,
    starts the metrics server. *)
Theorem ops_check :
  (∀ (f : Flags Z) conn evs, ops f <= 0 →
     SvcEps.main f conn evs = [EvFatal "ops cannot be <= 0"]
     ∧ (EvGo ∉ SvcEps.main f conn evs)
     ∧ (∀ addr, EvListenAndServe addr ∉ SvcEps.main f conn evs)) ∧
  (∀ (f : Flags Q) conn evs, (ops f <= 0)%Q →
     PodSvc.main f conn evs = [EvFatal "ops cannot be <= 0"]
     ∧ (EvGo ∉ PodSvc.main f conn evs)
     ∧ (∀ addr, EvListenAndServe addr ∉ PodSvc.main f conn evs)) ∧
  (∀ (f : Flags Z) conn evs, 0 < ops f →
     (∃ rest, SvcEps.main f conn evs = EvSignalNotify :: EvGetAPIConn :: rest)
     ∧ (∃ rest, SvcEps.main f None evs
                = EvSignalNotify :: EvGetAPIConn :: EvHandle "/metrics"
                  :: EvListenAndServe (promaddr f) :: rest)) ∧
  (∀ (f : Flags Q) conn evs, (0 < ops f)%Q →
     (∃ rest, PodSvc.main f conn evs = EvSignalNotify :: EvGetAPIConn :: rest)
     ∧ (∃ rest, PodSvc.main f None evs
                = EvSignalNotify :: EvGetAPIConn :: EvHandle "/metrics"
                  :: EvListenAndServe (promaddr f) :: rest)).
Proof.
  split; [|split; [|split]].
  - intros f conn evs Hops. unfold SvcEps.main.
    destruct (Z.leb_spec (ops f) 0) as [_|?]; [|lia].
    split; [done|]. split; [|intros addr];
      rewrite list_elem_of_singleton; discriminate.
  - intros f conn evs Hops. unfold PodSvc.main.
    apply Qle_bool_iff in Hops. rewrite Hops.
    split; [done|]. split; [|intros addr];
      rewrite list_elem_of_singleton; discriminate.
  - intros f conn evs Hops. unfold SvcEps.main.
    destruct (Z.leb_spec (ops f) 0) as [?|_]; [lia|].
    split; eexists; reflexivity.
  - intros f conn evs Hops. unfold PodSvc.main.
    destruct (Qle_bool (ops f) 0) eqn:Hle.
    + apply Qle_bool_iff in Hle. exfalso. by apply (Qlt_not_le _ _ Hops).
    + split; eexists; reflexivity.
Qed.

Lemma ops_check_witness :
  (SvcEps.main (flags_int 0 false) None [Tick; Tick; Sig] = [EvFatal "ops cannot be <= 0"]
   ∧ (EvGo ∉ SvcEps.main (flags_int 0 false) None [Tick; Tick; Sig])
   ∧ (∀ addr, EvListenAndServe addr ∉ SvcEps.main (flags_int 0 false) None [Tick; Tick; Sig])) ∧
  (PodSvc.main (flags_float (-1 # 2) false) None [Tick] = [EvFatal "ops cannot be <= 0"]
   ∧ (EvGo ∉ PodSvc.main (flags_float (-1 # 2) false) None [Tick])
   ∧ (∀ addr, EvListenAndServe addr ∉ PodSvc.main (flags_float (-1 # 2) false) None [Tick])) ∧
  ((∃ rest, SvcEps.main (flags_int 4 false) (Some "no cluster") [Tick; Sig]
            = EvSignalNotify :: EvGetAPIConn :: rest)
   ∧ (∃ rest, SvcEps.main (flags_int 4 false) None [Tick; Sig]
              = EvSignalNotify :: EvGetAPIConn :: EvHandle "/metrics"
                :: EvListenAndServe (promaddr (flags_int 4 false)) :: rest)) ∧
  ((∃ rest, PodSvc.main (flags_float (1 # 2) false) None [Tick; Sig]
            = EvSignalNotify :: EvGetAPIConn :: rest)
   ∧ (∃ rest, PodSvc.main (flags_float (1 # 2) false) None [Tick; Sig]
              = EvSignalNotify :: EvGetAPIConn :: EvHandle "/metrics"
                :: EvListenAndServe (promaddr (flags_float (1 # 2) false)) :: rest)).
Proof.
  split; [|split; [|split]].
  - apply (proj1 ops_check (flags_int 0 false) None [Tick; Tick; Sig]). simpl. lia.
  - apply (proj1 (proj2 ops_check) (flags_float (-1 # 2) false) None [Tick]).
    simpl. unfold Qle. simpl. lia.
  - apply (proj1 (proj2 (proj2 ops_check)) (flags_int 4 false) (Some "no cluster")
             [Tick; Sig]).
    simpl. lia.
  - apply (proj2 (proj2 (proj2 ops_check)) (flags_float (1 # 2) false) None [Tick; Sig]).
    simpl. unfold Qlt. simpl. lia.
Defined.

(** Each tick received launches exactly one cycle, until a signal ends
    the process. *)
Lemma select_loop_launches evs : launches (select_loop evs) = ticks_before_signal evs.
Proof. induction evs as [|[|] evs IH]; simpl; congruence. Qed.

(** The integer revision divides the second by [ops]: the period is
    [1/ops] seconds rounded down to the nanosecond, positive up to a
    rate of 10^9. *)
Lemma SvcEps_ticker_period_bounds (n : Z) :
  0 < n →
  n * SvcEps.ticker_period n <= Second < n * (SvcEps.ticker_period n + 1)
  ∧ (n <= Second → 0 < SvcEps.ticker_period n).
Proof.
  intros Hn. unfold SvcEps.ticker_period.
  rewrite Z.quot_div_nonneg by (unfold Second; lia).
  pose proof (Z.div_mod (1 * Second) n ltac:(lia)) as Hd.
  pose proof (Z.mod_pos_bound (1 * Second) n Hn) as Hm.
  split; [lia|]. intros Hle.
  apply Z.div_str_pos. lia.
Qed.

Lemma SvcEps_main_launches (f : Flags Z) evs :
  0 < ops f <= Second →
  launches (SvcEps.main f None evs) = ticks_before_signal evs.
Proof.
  intros [Hpos Hle]. unfold SvcEps.main, NewTicker.
  destruct (Z.leb_spec (ops f) 0) as [?|_]; [lia|].
  destruct (SvcEps_ticker_period_bounds (ops f) Hpos) as [_ Hper].
  specialize (Hper Hle).
  destruct (Z.leb_spec (SvcEps.ticker_period (ops f)) 0) as [?|_]; [lia|].
  simpl. apply select_loop_launches.
Qed.

(** The floating-point revision converts [1/ops] to an integer number of
    nanoseconds before it multiplies by the second: every rate above one
    per second gives a period of zero. *)
Lemma PodSvc_ticker_period_above_one (x : Q) :
  (1 < x)%Q → PodSvc.ticker_period x = 0.
Proof.
  destruct x as [a b]. unfold Qlt. simpl. intros Hlt.
  unfold PodSvc.ticker_period, PodSvc.Duration_of_float, Qdiv, Qmult, Qinv. simpl.
  destruct a as [|pa|pa]; simpl; try lia.
  rewrite Z.quot_small; [reflexivity | lia].
Qed.

Lemma PodSvc_main_panics (f : Flags Q) evs :
  (1 < ops f)%Q →
  PodSvc.main f None evs =
    [EvSignalNotify; EvGetAPIConn; EvHandle "/metrics"; EvListenAndServe (promaddr f);
     EvPanic "non-positive interval for NewTicker"].
Proof.
  intros Hops. unfold PodSvc.main.
  destruct (Qle_bool (ops f) 0) eqn:Hle.
  - apply Qle_bool_iff in Hle. exfalso.
    apply (Qlt_not_le _ _ Hops). eapply Qle_trans; [exact Hle | done].
  - by rewrite PodSvc_ticker_period_above_one.
Qed.

(** C1, at the rate of 2 operations per second.  [src/main.go] gives the
    ticker half a second; [src/unnamed/part_001] gives it
    [time.Duration(0.5) * time.Second], which is 0: [time.NewTicker]
    panics and no cycle is ever launched. *)
Theorem ticker_period_at_two :
  SvcEps.ticker_period 2 = 500000000
  ∧ PodSvc.ticker_period 2 = 0
  ∧ PodSvc.main (flags_float 2 false) None [Tick; Tick; Tick] =
      [EvSignalNotify; EvGetAPIConn; EvHandle "/metrics"; EvListenAndServe ":9696";
       EvPanic "non-positive interval for NewTicker"]
  ∧ launches (PodSvc.main (flags_float 2 false) None [Tick; Tick; Tick]) = 0%nat
  ∧ launches (SvcEps.main (flags_int 2 false) None [Tick; Tick; Tick]) = 3%nat.
Proof. repeat split. Qed.

Example ticker_period_int_3 : SvcEps.ticker_period 3 = 333333333.
Proof. reflexivity. Qed.

Example ticker_period_float_half : PodSvc.ticker_period (1 # 2) = 2 * Second.
Proof. reflexivity. Qed.

Example ticker_period_float_3 : PodSvc.ticker_period 3 = 0.
Proof. reflexivity. Qed.

Example main_int_signal :
  SvcEps.main (flags_int 2 false) None [Tick; Tick; Sig; Tick] =
    [EvSignalNotify; EvGetAPIConn; EvHandle "/metrics"; EvListenAndServe ":9696";
     EvNewTicker 500000000;
     EvPrintf {| ll_fmt := "Performing %v operations per second"; ll_args := [ArgZ 2] |};
     EvGo; EvGo;
     EvPrintf {| ll_fmt := "Got signal, exiting"; ll_args := [] |}; EvExit 0].
Proof. reflexivity. Qed.

(** * Further properties *)

(** ** Identities and the random source *)

Lemma draw_range env w i : 0 <= draw env w i < 36.
Proof. unfold draw. change (len letterBytes) with 36. apply Z.mod_pos_bound. lia. Qed.

Lemma draw_shift env w i : draw env (set_rng (S (rng_pos w)) w) i = draw env w (S i).
Proof. unfold draw. simpl. by rewrite Nat.add_succ_r. Qed.

(** One turn of the [for i := range b] loop. *)
Lemma fill_bytes_S env n w :
  fill_bytes env (S n) w =
  match String.get (Z.to_nat (draw env w 0)) letterBytes with
  | Some c =>
      match fill_bytes env n (set_rng (S (rng_pos w)) w) with
      | Ok rest w2 => Ok (String c rest) w2
      | Panic msg => Panic msg
      | OutOfFuel => OutOfFuel
      end
  | None => Panic "index out of range"
  end.
Proof.
  pose proof (draw_range env w 0) as Hr. unfold draw in *. rewrite Nat.add_0_r in *.
  simpl fill_bytes. unfold bind, Intn, index.
  change (len letterBytes <=? 0) with false. cbv beta iota.
  destruct (Z.ltb_spec (rand_src env (rng_pos w) `mod` len letterBytes) 0) as [?|_];
    [change (len letterBytes) with 36 in *; lia|].
  by destruct (String.get _ letterBytes).
Qed.

(** The [i]-th byte written is the letter at the [i]-th draw. *)
Lemma fill_bytes_get env n : ∀ w s w1,
  fill_bytes env n w = Ok s w1 →
  w1 = set_rng (rng_pos w + n) w
  ∧ String.length s = n
  ∧ ∀ i, (i < n)%nat →
      String.get i s = String.get (Z.to_nat (draw env w i)) letterBytes.
Proof.
  induction n as [|n IH]; intros w s w1 Hrun.
  - simpl in Hrun. apply Ok_inj in Hrun as [<- <-].
    rewrite Nat.add_0_r, set_rng_id. repeat split. intros i Hi. lia.
  - rewrite fill_bytes_S in Hrun.
    destruct (String.get (Z.to_nat (draw env w 0)) letterBytes) as [c|] eqn:Hc;
      [|discriminate].
    destruct (fill_bytes env n (set_rng (S (rng_pos w)) w)) as [rest w2| |] eqn:Hrest;
      try discriminate.
    apply Ok_inj in Hrun as [<- <-].
    destruct (IH _ _ _ Hrest) as (-> & Hlen & Hget).
    split; [|split].
    + unfold set_rng. simpl. f_equal. lia.
    + simpl. by rewrite Hlen.
    + intros [|i] Hi.
      * by rewrite Hc.
      * change (String.get (S i) (String c rest)) with (String.get i rest).
        rewrite Hget by lia. by rewrite draw_shift.
Qed.

Lemma letterBytes_NoDup : NoDup (chars letterBytes).
Proof.
  apply NoDup_ListNoDup.
  repeat (constructor; [simpl; intros Hin; intuition discriminate|]).
  constructor.
Qed.

Lemma get_chars (s : string) (i : nat) : String.get i s = chars s !! i.
Proof.
  revert i. induction s as [|a s IH]; intros [|i]; simpl; try reflexivity. apply IH.
Qed.

Lemma get_beyond (s : string) (i : nat) :
  (String.length s <= i)%nat → String.get i s = None.
Proof.
  revert i. induction s as [|a s IH]; intros i Hi; [by destruct i|].
  destruct i as [|i]; simpl in *; [lia|]. apply IH. lia.
Qed.

(** No letter of the alphabet stands at two places. *)
Lemma letterBytes_get_inj (i j : nat) (c : ascii) :
  String.get i letterBytes = Some c → String.get j letterBytes = Some c → i = j.
Proof.
  rewrite !get_chars. intros Hi Hj.
  by eapply NoDup_lookup; [apply letterBytes_NoDup| |].
Qed.

(** Two strings drawn by [RandStringBytes] are equal exactly when every
    draw named the same letter: distinct draws give distinct names. *)
Theorem RandStringBytes_injective env env' (n : Z) w w' s s' w1 w1' :
  RandStringBytes env n w = Ok s w1 →
  RandStringBytes env' n w' = Ok s' w1' →
  (s = s' ↔ ∀ i, (i < Z.to_nat n)%nat → draw env w i = draw env' w' i).
Proof.
  unfold RandStringBytes. destruct (n <? 0); [discriminate|].
  intros Hs Hs'.
  destruct (fill_bytes_get _ _ _ _ _ Hs) as (_ & Hlen & Hget).
  destruct (fill_bytes_get _ _ _ _ _ Hs') as (_ & Hlen' & Hget').
  split.
  - intros <- i Hi.
    pose proof (draw_range env w i) as Hr. pose proof (draw_range env' w' i) as Hr'.
    destruct (get_in_range letterBytes (Z.to_nat (draw env w i))) as (c & Hc & _).
    { rewrite letterBytes_length. lia. }
    assert (Z.to_nat (draw env w i) = Z.to_nat (draw env' w' i)); [|lia].
    apply (letterBytes_get_inj _ _ c); [done|].
    by rewrite <- Hget', Hget, Hc.
  - intros Hdraw. apply String.get_correct. intros i.
    destruct (Nat.lt_ge_cases i (Z.to_nat n)) as [Hi|Hi].
    + by rewrite Hget, Hget', Hdraw.
    + rewrite !get_beyond by lia. reflexivity.
Qed.

Lemma RandStringBytes_injective_witness :
  ("07e" = "07e" ↔
   ∀ i, (i < Z.to_nat 3)%nat → draw env_ok world0 i = draw env_fail world0 i).
Proof.
  apply (RandStringBytes_injective env_ok env_fail 3 world0 world0 "07e" "07e"
           (set_rng 3 world0) (set_rng 3 world0)); reflexivity.
Defined.

(** ** What a verification phase leaves behind *)

Lemma polls_bound (k : nat) (tmo : Z) :
  Z.of_nat k * Second < tmo → Z.of_nat (S k) <= max_polls tmo.
Proof.
  intros Hk. unfold max_polls. apply Z.max_le_iff. right.
  apply Z.div_le_lower_bound; unfold Second in *; lia.
Qed.

(** Every phase ends in exactly one of two ways, and within bounds. *)
Lemma validate_outcome env cond name tmo action w :
  ∃ (v : bool) (d c : Z) (p : nat),
    validate env cond name tmo action w =
      Ok tt {| clock := c; rng_pos := rng_pos w; dns_polls := p;
               OperationCount := OperationCount w;
               ValidationFailCount := Inc_unless v action (ValidationFailCount w);
               ValidationDuration := Observe_if v action d (ValidationDuration w);
               log_out := log_out w; api_calls := api_calls w |}
    ∧ clock w <= c
    ∧ (dns_polls w <= p)%nat
    ∧ Z.of_nat (p - dns_polls w) <= max_polls tmo
    ∧ (0 < tmo → (dns_polls w < p)%nat)
    ∧ 0 <= d
    ∧ (v = true → d < tmo)
    ∧ (tmo <= 0 → v = false ∧ c = clock w ∧ p = dns_polls w).
Proof.
  destruct (verify_run env cond name tmo w) as (v & k & Hrun & _ & Hearly & Hend).
  pose proof (issue_time_ge env (clock w) (dns_polls w) k) as Hge.
  assert (Hsec : 0 < Second) by (unfold Second; lia).
  assert (Hknn : 0 <= Z.of_nat k * Second) by (apply Z.mul_nonneg_nonneg; lia).
  exists v, (issue_time env (clock w) (dns_polls w) k - clock w).
  unfold validate, bind. rewrite Hrun. destruct v; simpl.
  - destruct Hend as [_ Hlt]. eexists _, _. split; [reflexivity|].
    unfold advance; cbn [clock dns_polls]. split_and!; try lia.
    replace (S (dns_polls w + k) - dns_polls w)%nat with (S k) by lia.
    apply polls_bound. lia.
  - eexists _, _. split; [reflexivity|].
    assert (Hk : 0 < tmo → (0 < k)%nat).
    { intros Hpos. destruct k; [simpl in Hend|]; lia. }
    assert (Hz : tmo <= 0 → k = 0%nat).
    { intros Hneg. destruct k as [|j]; [done|].
      specialize (Hearly 0%nat ltac:(lia)). simpl in Hearly. lia. }
    unfold advance; cbn [clock dns_polls]. split_and!; try lia.
    + replace (dns_polls w + k - dns_polls w)%nat with k by lia.
      destruct k as [|j]; [unfold max_polls; lia|].
      apply polls_bound. specialize (Hearly j ltac:(lia)).
      pose proof (issue_time_ge env (clock w) (dns_polls w) j). lia.
    + intros Hneg. rewrite (Hz Hneg). split_and!; [done | done | lia].
Qed.

Lemma SvcEps_cycle_body_outcome env f rando w :
  ∃ (v1 v2 : bool) (d1 d2 : Z) w',
    SvcEps.cycle_body env f rando w = Ok tt w'
    ∧ rng_pos w' = rng_pos w
    ∧ two_phases (timeout f) w w' v1 v2 d1 d2.
Proof.
  unfold SvcEps.cycle_body, bind. simpl.
  destruct (api_err env OpCreateService), (api_err env OpCreateEndpoints),
    (api_err env OpDeleteService), (verbose f); simpl;
    step_outcome validate_outcome; step_outcome validate_outcome;
    eexists v, v0, d, d0, _; (split; [reflexivity|]);
    unfold two_phases;
    cbn [clock dns_polls rng_pos ValidationFailCount ValidationDuration];
    split_and!; try done; try lia;
    intros Hneg; specialize (Hzero Hneg); specialize (Hzero0 Hneg);
    intuition congruence.
Qed.

Lemma PodSvc_cycle_body_outcome env f rando w :
  ∃ (v1 v2 : bool) (d1 d2 : Z) w',
    PodSvc.cycle_body env f rando w = Ok tt w'
    ∧ rng_pos w' = rng_pos w
    ∧ two_phases (timeout f) w w' v1 v2 d1 d2.
Proof.
  unfold PodSvc.cycle_body, bind. simpl.
  destruct (api_err env OpCreatePod), (api_err env OpCreateService),
    (api_err env OpDeletePod), (api_err env OpDeleteService), (verbose f); simpl;
    step_outcome validate_outcome; step_outcome validate_outcome;
    eexists v, v0, d, d0, _; (split; [reflexivity|]);
    unfold two_phases;
    cbn [clock dns_polls rng_pos ValidationFailCount ValidationDuration];
    split_and!; try done; try lia;
    intros Hneg; specialize (Hzero Hneg); specialize (Hzero0 Hneg);
    intuition congruence.
Qed.

Lemma SvcEps_cycle_outcome env f w :
  ∃ (v1 v2 : bool) (d1 d2 : Z) w',
    SvcEps.cycle env f w = Ok tt w'
    ∧ rng_pos w' = (rng_pos w + 18)%nat
    ∧ two_phases (timeout f) w w' v1 v2 d1 d2.
Proof.
  destruct (new_identity_ok env w) as (s & Hid & _).
  destruct (SvcEps_cycle_body_outcome env f ("kubernoisy-" +:+ s)
              (set_rng (rng_pos w + 18) w)) as (v1 & v2 & d1 & d2 & w' & Hbody & Hrng & Hph).
  exists v1, v2, d1, d2, w'. unfold SvcEps.cycle, bind. rewrite Hid, Hbody.
  split; [done|]. split; [exact Hrng | exact Hph].
Qed.

Lemma PodSvc_cycle_outcome env f w :
  ∃ (v1 v2 : bool) (d1 d2 : Z) w',
    PodSvc.cycle env f w = Ok tt w'
    ∧ rng_pos w' = (rng_pos w + 18)%nat
    ∧ two_phases (timeout f) w w' v1 v2 d1 d2.
Proof.
  destruct (new_identity_ok env w) as (s & Hid & _).
  destruct (PodSvc_cycle_body_outcome env f ("kubernoisy-" +:+ s)
              (set_rng (rng_pos w + 18) w)) as (v1 & v2 & d1 & d2 & w' & Hbody & Hrng & Hph).
  exists v1, v2, d1, d2, w'. unfold PodSvc.cycle, bind. rewrite Hid, Hbody.
  split; [done|]. split; [exact Hrng | exact Hph].
Qed.

Lemma observed_Observe_eq (k : string) d (m : gmap string (list Duration)) :
  observed (Observe k d m) k = observed m k ++ [d].
Proof. unfold observed, Observe. by rewrite lookup_insert_eq. Qed.

Lemma observed_Observe_ne (k k' : string) d (m : gmap string (list Duration)) :
  k ≠ k' → observed (Observe k d m) k' = observed m k'.
Proof. intros Hne. unfold observed, Observe. by rewrite lookup_insert_ne. Qed.

(** From the two phases to the metric of each action. *)
Lemma two_phases_outcomes tmo w w' v1 v2 d1 d2 :
  two_phases tmo w w' v1 v2 d1 d2 →
  one_outcome tmo w w' "add"
  ∧ one_outcome tmo w w' "delete"
  ∧ ∀ action, action ≠ "add" → action ≠ "delete" →
      count (ValidationFailCount w') action = count (ValidationFailCount w) action
      ∧ observed (ValidationDuration w') action = observed (ValidationDuration w) action.
Proof.
  intros (Hvf & Hvd & _ & _ & _ & _ & Hd1 & Hlt1 & Hd2 & Hlt2 & _).
  unfold one_outcome. rewrite Hvf, Hvd. split_and!.
  - destruct v1, v2; [right | right | left | left]; unfold Inc_unless, Observe_if;
      repeat (rewrite count_Inc_eq || (rewrite count_Inc_ne by discriminate)
              || rewrite observed_Observe_eq
              || (rewrite observed_Observe_ne by discriminate));
      try done; (split; [done|]); exists d1; (split; [done|]);
      specialize (Hlt1 eq_refl); lia.
  - destruct v1, v2; [right | left | right | left]; unfold Inc_unless, Observe_if;
      repeat (rewrite count_Inc_eq || (rewrite count_Inc_ne by discriminate)
              || rewrite observed_Observe_eq
              || (rewrite observed_Observe_ne by discriminate));
      try done; (split; [done|]); exists d2; (split; [done|]);
      specialize (Hlt2 eq_refl); lia.
  - intros action Ha Hd.
    destruct v1, v2; unfold Inc_unless, Observe_if;
      repeat ((rewrite count_Inc_ne by done)
              || (rewrite observed_Observe_ne by done)); done.
Qed.

(** ** Validation metrics of a cycle *)

(** Each of the two verification phases of a cycle records exactly one
    outcome under its own label: either its failure counter moves by one
    and its histogram is left alone, or the histogram receives one value
    and the counter is left alone.  Every value observed lies in
    [0, timeout).  No other label of the two vectors is touched. *)
Theorem validation_recorded_once :
  (∀ env f w, ∃ w',
     SvcEps.cycle env f w = Ok tt w'
     ∧ one_outcome (timeout f) w w' "add"
     ∧ one_outcome (timeout f) w w' "delete"
     ∧ ∀ action, action ≠ "add" → action ≠ "delete" →
         count (ValidationFailCount w') action = count (ValidationFailCount w) action
         ∧ observed (ValidationDuration w') action
           = observed (ValidationDuration w) action) ∧
  (∀ env f w, ∃ w',
     PodSvc.cycle env f w = Ok tt w'
     ∧ one_outcome (timeout f) w w' "add"
     ∧ one_outcome (timeout f) w w' "delete"
     ∧ ∀ action, action ≠ "add" → action ≠ "delete" →
         count (ValidationFailCount w') action = count (ValidationFailCount w) action
         ∧ observed (ValidationDuration w') action
           = observed (ValidationDuration w) action).
Proof.
  split; intros env f w.
  - destruct (SvcEps_cycle_outcome env f w) as (v1 & v2 & d1 & d2 & w' & Hrun & _ & Hph).
    exists w'. split; [done|]. by eapply two_phases_outcomes.
  - destruct (PodSvc_cycle_outcome env f w) as (v1 & v2 & d1 & d2 & w' & Hrun & _ & Hph).
    exists w'. split; [done|]. by eapply two_phases_outcomes.
Qed.

Lemma validation_recorded_once_witness :
  ∃ w',
    SvcEps.cycle env_ok (flags_int 1 false) world0 = Ok tt w'
    ∧ one_outcome (timeout (flags_int 1 false)) world0 w' "add"
    ∧ one_outcome (timeout (flags_int 1 false)) world0 w' "delete"
    ∧ ∀ action, action ≠ "add" → action ≠ "delete" →
        count (ValidationFailCount w') action = count (ValidationFailCount world0) action
        ∧ observed (ValidationDuration w') action
          = observed (ValidationDuration world0) action.
Proof. apply (proj1 validation_recorded_once env_ok (flags_int 1 false) world0). Defined.

(** ** What a cycle consumes *)



Example cycle_budget_tight :
  ∃ w', PodSvc.cycle env_stuck (flags_float 1 false) world0 = Ok tt w'
        ∧ dns_polls w' = 31%nat
        ∧ max_polls (timeout (flags_float 1 false)) = 30.
Proof. eexists. split; [vm_compute; reflexivity|]. split; reflexivity. Qed.

(** With a timeout of zero or less neither loop body runs: the cycle
    still makes its API calls, but issues no lookup, spends no time, and
    counts one validation failure for [add] and one for [delete]; the
    histograms receive nothing. *)
Theorem zero_timeout_cycle :
  (∀ env (f : Flags Z) w, timeout f <= 0 →
     ∃ w', SvcEps.cycle env f w = Ok tt w'
           ∧ dns_polls w' = dns_polls w ∧ clock w' = clock w
           ∧ count (ValidationFailCount w') "add"
             = S (count (ValidationFailCount w) "add")
           ∧ count (ValidationFailCount w') "delete"
             = S (count (ValidationFailCount w) "delete")
           ∧ ValidationDuration w' = ValidationDuration w
           ∧ length (new_calls w w') = 3%nat) ∧
  (∀ env (f : Flags Q) w, timeout f <= 0 →
     ∃ w', PodSvc.cycle env f w = Ok tt w'
           ∧ dns_polls w' = dns_polls w ∧ clock w' = clock w
           ∧ count (ValidationFailCount w') "add"
             = S (count (ValidationFailCount w) "add")
           ∧ count (ValidationFailCount w') "delete"
             = S (count (ValidationFailCount w) "delete")
           ∧ ValidationDuration w' = ValidationDuration w
           ∧ length (new_calls w w') = 4%nat).
Proof.
  split; intros env f w Hneg.
  - destruct (SvcEps_cycle_outcome env f w)
      as (v1 & v2 & d1 & d2 & w' & Hrun & _ & Hvf & Hvd & _ & _ & _ & _ & _ & _ & _ & _ & Hz).
    destruct (Hz Hneg) as (-> & -> & Hc & Hp).
    destruct (SvcEps_cycle_run env f w) as (s & w'' & Hrun' & _ & _ & _ & Hcalls).
    rewrite Hrun in Hrun'. apply Ok_inj in Hrun' as [_ <-].
    exists w'. rewrite Hvf, Hvd, (new_calls_app _ _ _ Hcalls).
    unfold Inc_unless, Observe_if.
    repeat (rewrite count_Inc_eq || (rewrite count_Inc_ne by discriminate)).
    by split_and!.
  - destruct (PodSvc_cycle_outcome env f w)
      as (v1 & v2 & d1 & d2 & w' & Hrun & _ & Hvf & Hvd & _ & _ & _ & _ & _ & _ & _ & _ & Hz).
    destruct (Hz Hneg) as (-> & -> & Hc & Hp).
    destruct (PodSvc_cycle_run env f w) as (s & w'' & Hrun' & _ & _ & _ & Hcalls).
    rewrite Hrun in Hrun'. apply Ok_inj in Hrun' as [_ <-].
    exists w'. rewrite Hvf, Hvd, (new_calls_app _ _ _ Hcalls).
    unfold Inc_unless, Observe_if.
    repeat (rewrite count_Inc_eq || (rewrite count_Inc_ne by discriminate)).
    by split_and!.
Qed.

Lemma zero_timeout_cycle_witness :
  let f := {| ops := 1; promaddr := ":9696"; namespace := "load-test";
              timeout := 0; verbose := false |} in
  timeout f <= 0 ∧
  ∃ w', SvcEps.cycle env_ok f world0 = Ok tt w'
        ∧ dns_polls w' = dns_polls world0 ∧ clock w' = clock world0
        ∧ count (ValidationFailCount w') "add"
          = S (count (ValidationFailCount world0) "add")
        ∧ count (ValidationFailCount w') "delete"
          = S (count (ValidationFailCount world0) "delete")
        ∧ ValidationDuration w' = ValidationDuration world0
        ∧ length (new_calls world0 w') = 3%nat.
Proof.
  intros f. split; [simpl; lia|].
  apply (proj1 zero_timeout_cycle env_ok f world0). simpl. lia.
Defined.

(** ** The loop of [main] *)

Lemma select_loop_after_signal pre post :
  select_loop (pre ++ Sig :: post) = select_loop (pre ++ [Sig]).
Proof. induction pre as [|[|] pre IH]; simpl; congruence. Qed.

Lemma select_loop_no_signal evs evs' :
  Sig ∉ evs → select_loop (evs ++ evs') = select_loop evs ++ select_loop evs'.
Proof.
  induction evs as [|[|] evs IH]; intros Hno; simpl.
  - reflexivity.
  - f_equal. apply IH. intros Hin. apply Hno. by right.
  - exfalso. apply Hno. left.
Qed.

Lemma select_loop_exit evs :
  Sig ∈ evs ↔ last (select_loop evs) = Some (EvExit 0).
Proof.
  induction evs as [|[|] evs IH]; simpl.
  - split; [intros Hin; by apply elem_of_nil in Hin | discriminate].
  - rewrite elem_of_cons, IH.
    destruct (select_loop evs) as [|e l] eqn:Hl; simpl.
    + split; [intros [?|?]; discriminate | discriminate].
    + split; [intros [?|?]; [discriminate | done] | by right].
  - split; [done | intros _; left].
Qed.

(** What the [select] loop does with a signal: it logs, leaves with exit
    status 0, and never looks at what the channels deliver afterwards;
    until then each tick adds one launch to what came before.  A run
    ends in exit status 0 exactly when a signal arrived. *)
Theorem signal_ends_the_loop :
  (∀ pre post, select_loop (pre ++ Sig :: post) = select_loop (pre ++ [Sig])) ∧
  (∀ evs evs', Sig ∉ evs →
     select_loop (evs ++ evs') = select_loop evs ++ select_loop evs'
     ∧ launches (select_loop evs) = length evs) ∧
  (∀ evs, Sig ∈ evs ↔ last (select_loop evs) = Some (EvExit 0)) ∧
  (∀ pre post, Sig ∉ pre →
     select_loop (pre ++ Sig :: post)
     = select_loop pre
       ++ [EvPrintf {| ll_fmt := "Got signal, exiting"; ll_args := [] |}; EvExit 0]).
Proof.
  split_and!.
  - apply select_loop_after_signal.
  - intros evs evs' Hno. split; [by apply select_loop_no_signal|].
    rewrite select_loop_launches.
    induction evs as [|[|] evs IH]; simpl; [done| |].
    + f_equal. apply IH. intros Hin. apply Hno. by right.
    + exfalso. apply Hno. left.
  - apply select_loop_exit.
  - intros pre post Hno. by rewrite select_loop_no_signal.
Qed.

Lemma signal_ends_the_loop_witness :
  select_loop ([Tick; Tick] ++ [Sig; Tick])
  = select_loop [Tick; Tick] ++ select_loop [Sig; Tick]
  ∧ launches (select_loop [Tick; Tick]) = length [Tick; Tick].
Proof.
  apply (proj1 (proj2 signal_ends_the_loop) [Tick; Tick] [Sig; Tick]).
  rewrite !elem_of_cons, elem_of_nil. intros [?|[?|[]]]; discriminate.
Defined.



(** ** The ticker period at the ends of the range *)

(** In [src/main.go] a faster rate never gives a longer period; the
    period stays within (0, 1 s] up to 10^9 operations per second, and
    above that the integer division gives 0: [time.NewTicker] panics,
    after the metrics server has been started. *)
Theorem int_period_range :
  (∀ n m, 0 < n <= m → SvcEps.ticker_period m <= SvcEps.ticker_period n) ∧
  (∀ n, 0 < n <= Second → 0 < SvcEps.ticker_period n <= Second) ∧
  (∀ (f : Flags Z) evs, Second < ops f →
     SvcEps.ticker_period (ops f) = 0
     ∧ SvcEps.main f None evs =
         [EvSignalNotify; EvGetAPIConn; EvHandle "/metrics";
          EvListenAndServe (promaddr f);
          EvPanic "non-positive interval for NewTicker"]).
Proof.
  split_and!.
  - intros n m [Hn Hm]. unfold SvcEps.ticker_period.
    rewrite !Z.quot_div_nonneg by (unfold Second; lia).
    apply Z.div_le_compat_l; [unfold Second; lia | lia].
  - intros n [Hn Hle].
    destruct (SvcEps_ticker_period_bounds n Hn) as [[Hlo _] Hpos].
    split; [by apply Hpos|]. nia.
  - intros f evs Hbig.
    assert (Hz : SvcEps.ticker_period (ops f) = 0).
    { unfold SvcEps.ticker_period. apply Z.quot_small. unfold Second in *. lia. }
    split; [done|]. unfold SvcEps.main, NewTicker. rewrite Hz.
    destruct (Z.leb_spec (ops f) 0) as [?|_]; [unfold Second in *; lia | done].
Qed.

Lemma int_period_range_witness :
  SvcEps.ticker_period (ops (flags_int 2000000000 false)) = 0
  ∧ SvcEps.main (flags_int 2000000000 false) None [Tick] =
      [EvSignalNotify; EvGetAPIConn; EvHandle "/metrics";
       EvListenAndServe (promaddr (flags_int 2000000000 false));
       EvPanic "non-positive interval for NewTicker"].
Proof.
  apply (proj2 (proj2 int_period_range) (flags_int 2000000000 false) [Tick]).
  reflexivity.
Defined.



Example float_period_two_fifths : PodSvc.ticker_period (2 # 5) = 2 * Second.
Proof. reflexivity. Qed.

(** ** The API connection *)



Example api_connection_in_cluster :
  getAPIConn kube_ok
  = (Some {| cs_config := {| rc_Host := "https://10.96.0.1:443";
                             rc_BearerToken := "token";
                             rc_ContentType := "application/vnd.kubernetes.protobuf" |} |},
     None).
Proof. reflexivity. Qed.

(** ** The objects of a cycle *)

(** In [src/unnamed/part_001] the service built for an identity selects
    the pod built for it: every label the selector asks for is carried by
    the pod with the same value, the service port is the port the
    container declares, and both objects have the same name and
    namespace.  A pod built for another identity is not selected. *)
Theorem service_selects_its_pod :
  (∀ rando ns,
     ss_Selector (svc_Spec (PodSvc.mk_service rando ns))
       ⊆ meta_Labels (pod_ObjectMeta (PodSvc.mk_pod rando ns))
     ∧ ss_Selector (svc_Spec (PodSvc.mk_service rando ns)) ≠ ∅
     ∧ sp_Port <$> ss_Ports (svc_Spec (PodSvc.mk_service rando ns))
       = cp_ContainerPort
           <$> (ps_Containers (pod_Spec (PodSvc.mk_pod rando ns)) ≫= c_Ports)
     ∧ svc_ObjectMeta (PodSvc.mk_service rando ns)
       = {| meta_Name := meta_Name (pod_ObjectMeta (PodSvc.mk_pod rando ns));
            meta_Namespace := meta_Namespace (pod_ObjectMeta (PodSvc.mk_pod rando ns));
            meta_Labels := <["kubernoisy" := "noise"]> ∅ |}) ∧
  (∀ rando other ns,
     rando ≠ other →
     ¬ ss_Selector (svc_Spec (PodSvc.mk_service rando ns))
         ⊆ meta_Labels (pod_ObjectMeta (PodSvc.mk_pod other ns))).
Proof.
  split.
  - intros rando ns. simpl. split_and!; try done.
    apply map_subseteq_spec. intros k v.
    rewrite lookup_insert_Some, lookup_empty.
    intros [[<- <-]|[_ ?]]; [|done]. by rewrite lookup_insert_eq.
  - intros rando other ns Hne Hsub. simpl in Hsub.
    rewrite map_subseteq_spec in Hsub.
    specialize (Hsub "app" rando (lookup_insert_eq _ _ _)).
    rewrite lookup_insert_eq in Hsub. congruence.
Qed.

Lemma service_selects_its_pod_witness :
  ¬ ss_Selector (svc_Spec (PodSvc.mk_service "kubernoisy-a" "load-test"))
      ⊆ meta_Labels (pod_ObjectMeta (PodSvc.mk_pod "kubernoisy-b" "load-test")).
Proof.
  apply (proj2 service_selects_its_pod "kubernoisy-a" "kubernoisy-b" "load-test").
  discriminate.
Defined.

Lemma string_eqb_true (a b : string) : String.eqb a b = true ↔ a = b.
Proof. apply String.eqb_eq. Qed.

(** What each loop accepts.  Creation is verified in [src/main.go] by a
    resolution whose first address is the one put in the endpoints
    (later addresses are not looked at), in [src/unnamed/part_001] by any
    resolution with at least one address; deletion by an error whose
    message contains "no such host" somewhere.  No answer satisfies a
    creation loop and the deletion loop at once. *)
Theorem loop_conditions :
  (∀ rando ns,
     (es_Addresses <$> eps_Subsets (SvcEps.mk_endpoints rando ns))
     = [[{| ea_IP := SvcEps.ip; ea_Hostname := "test" |}]]) ∧
  (∀ r, resolves_to SvcEps.ip r = true ↔ ∃ rest, r = Resolved (SvcEps.ip :: rest)) ∧
  (∀ r, resolves r = true ↔ ∃ first rest, r = Resolved (first :: rest)) ∧
  (∀ r, not_found r = true ↔
        ∃ pre post, r = LookupError (pre +:+ "no such host" +:+ post)) ∧
  (∀ r, not_found r = true → resolves r = false ∧ resolves_to SvcEps.ip r = false) ∧
  (∀ r, resolves_to SvcEps.ip r = true → resolves r = true).
Proof.
  split_and!.
  - reflexivity.
  - intros [[|first rest]|msg]; simpl.
    + split; [discriminate | intros [? [=]]].
    + rewrite string_eqb_true. split; [intros ->; by eexists | intros [? [= -> _]]; done].
    + split; [discriminate | intros [? [=]]].
  - intros [[|first rest]|msg]; simpl.
    + split; [discriminate | intros (? & ? & [=])].
    + split; [by eexists _, _ | done].
    + split; [discriminate | intros (? & ? & [=])].
  - intros [ips|msg]; simpl.
    + split; [discriminate | intros (? & ? & [=])].
    + rewrite Contains_spec. split; intros (pre & post & H); exists pre, post; congruence.
  - intros [ips|msg]; simpl; [discriminate | done].
  - intros [[|first rest]|msg]; simpl; done.
Qed.

Example second_address_ignored :
  resolves_to SvcEps.ip (Resolved ["10.0.0.7"; "1.2.3.4"]) = false
  ∧ resolves (Resolved ["10.0.0.7"; "1.2.3.4"]) = true
  ∧ not_found (LookupError "lookup x: No Such Host") = false.
Proof. repeat split. Qed.

(** Every call of a cycle is addressed to the configured namespace and
    names the one identity drawn for the cycle, creations first and
    deletions after; the identity is 29 characters long. *)
Theorem calls_share_one_identity :
  (∀ env (f : Flags Z) w, ∃ rando w',
     SvcEps.cycle env f w = Ok tt w'
     ∧ String.length rando = 29%nat
     ∧ (∀ call, call ∈ new_calls w w' →
          call_namespace call = namespace f ∧ call_name call = rando)
     ∧ is_create <$> new_calls w w' = [true; true; false]) ∧
  (∀ env (f : Flags Q) w, ∃ rando w',
     PodSvc.cycle env f w = Ok tt w'
     ∧ String.length rando = 29%nat
     ∧ (∀ call, call ∈ new_calls w w' →
          call_namespace call = namespace f ∧ call_name call = rando)
     ∧ is_create <$> new_calls w w' = [true; true; false; false]).
Proof.
  split; intros env f w.
  - destruct (SvcEps_cycle_run env f w) as (s & w' & Hrun & Hlen & _ & _ & Hcalls).
    exists ("kubernoisy-" +:+ s), w'. rewrite (new_calls_app _ _ _ Hcalls).
    split_and!; [done | by rewrite length_append, Hlen | | done].
    intros call. unfold svceps_calls. rewrite !elem_of_cons, elem_of_nil.
    intros [->|[->|[->|[]]]]; done.
  - destruct (PodSvc_cycle_run env f w) as (s & w' & Hrun & Hlen & _ & _ & Hcalls).
    exists ("kubernoisy-" +:+ s), w'. rewrite (new_calls_app _ _ _ Hcalls).
    split_and!; [done | by rewrite length_append, Hlen | | done].
    intros call. unfold podsvc_calls. rewrite !elem_of_cons, elem_of_nil.
    intros [->|[->|[->|[->|[]]]]]; done.
Qed.

Lemma calls_share_one_identity_witness :
  ∃ rando w',
    PodSvc.cycle env_ok (flags_float 1 true) world0 = Ok tt w'
    ∧ String.length rando = 29%nat
    ∧ (∀ call, call ∈ new_calls world0 w' →
         call_namespace call = namespace (flags_float 1 true) ∧ call_name call = rando)
    ∧ is_create <$> new_calls world0 w' = [true; true; false; false].
Proof. apply (proj2 calls_share_one_identity env_ok (flags_float 1 true) world0). Defined.

(** ** Lines logged and counters moved *)

(** A cycle logs at most one line per failed call and nothing when every
    call succeeds; with [verbose] set it logs exactly one line per failed
    call. *)
Theorem one_line_per_failure :
  (∀ env (f : Flags Z) w, ∃ w',
     SvcEps.cycle env f w = Ok tt w'
     ∧ (length (new_lines w w') <= failed env svceps_ops)%nat
     ∧ (verbose f = true → length (new_lines w w') = failed env svceps_ops)
     ∧ (failed env svceps_ops = 0%nat → log_out w' = log_out w)) ∧
  (∀ env (f : Flags Q) w, ∃ w',
     PodSvc.cycle env f w = Ok tt w'
     ∧ (length (new_lines w w') <= failed env podsvc_ops)%nat
     ∧ (verbose f = true → length (new_lines w w') = failed env podsvc_ops)
     ∧ (failed env podsvc_ops = 0%nat → log_out w' = log_out w)).
Proof.
  split; intros env f w.
  - destruct (SvcEps_cycle_run env f w) as (s & w' & Hrun & _ & _ & Hlog & _).
    exists w'. split; [done|]. rewrite (new_lines_app _ _ _ Hlog), Hlog.
    unfold svceps_lines, failed, svceps_ops, when, failure_line. simpl.
    destruct (api_err env OpCreateService), (api_err env OpCreateEndpoints),
      (api_err env OpDeleteService), (verbose f); simpl;
      split_and!; try done; try lia; by rewrite ?app_nil_r.
  - destruct (PodSvc_cycle_run env f w) as (s & w' & Hrun & _ & _ & Hlog & _).
    exists w'. split; [done|]. rewrite (new_lines_app _ _ _ Hlog), Hlog.
    unfold podsvc_lines, failed, podsvc_ops, when, failure_line. simpl.
    destruct (api_err env OpCreatePod), (api_err env OpCreateService),
      (api_err env OpDeletePod), (api_err env OpDeleteService), (verbose f); simpl;
      split_and!; try done; try lia; by rewrite ?app_nil_r.
Qed.

Lemma one_line_per_failure_witness :
  ∃ w',
    PodSvc.cycle env_fail (flags_float 1 true) world0 = Ok tt w'
    ∧ (length (new_lines world0 w') <= failed env_fail podsvc_ops)%nat
    ∧ (verbose (flags_float 1 true) = true →
       length (new_lines world0 w') = failed env_fail podsvc_ops)
    ∧ (failed env_fail podsvc_ops = 0%nat → log_out w' = log_out world0).
Proof. apply (proj2 one_line_per_failure env_fail (flags_float 1 true) world0). Defined.

Example verbose_logs_every_failure :
  ∃ w', PodSvc.cycle env_fail (flags_float 1 true) world0 = Ok tt w'
        ∧ length (log_out w') = 4%nat ∧ failed env_fail podsvc_ops = 4%nat.
Proof. eexists. split; [vm_compute; reflexivity|]. split; reflexivity. Qed.

(** No action counter ever goes down or is reset by a cycle, and none
    moves by more than one. *)
Theorem action_counters_monotone :
  (∀ env (f : Flags Z) w, ∃ w',
     SvcEps.cycle env f w = Ok tt w'
     ∧ ∀ key, (count (OperationCount w) key <= count (OperationCount w') key
               <= S (count (OperationCount w) key))%nat) ∧
  (∀ env (f : Flags Q) w, ∃ w',
     PodSvc.cycle env f w = Ok tt w'
     ∧ ∀ key, (count (OperationCount w) key <= count (OperationCount w') key
               <= S (count (OperationCount w) key))%nat).
Proof.
  split; intros env f w.
  - destruct (SvcEps_cycle_run env f w) as (s & w' & Hrun & _ & Hcount & _).
    exists w'. split; [done|]. intros key. rewrite Hcount.
    destruct (decide (key ∈ counter_key <$> svceps_ops)) as [Hin|Hout].
    + apply list_elem_of_fmap in Hin as (op & -> & Hop).
      rewrite svceps_counts_at by done. lia.
    + rewrite svceps_counts_other; [lia|].
      intros op Hop <-. apply Hout. by apply list_elem_of_fmap_2.
  - destruct (PodSvc_cycle_run env f w) as (s & w' & Hrun & _ & Hcount & _).
    exists w'. split; [done|]. intros key. rewrite Hcount.
    destruct (decide (key ∈ counter_key <$> podsvc_ops)) as [Hin|Hout].
    + apply list_elem_of_fmap in Hin as (op & -> & Hop).
      rewrite podsvc_counts_at by done. destruct (api_err env op); lia.
    + rewrite podsvc_counts_other; [lia|].
      intros op Hop <-. apply Hout. by apply list_elem_of_fmap_2.
Qed.

Lemma action_counters_monotone_witness :
  ∃ w',
    SvcEps.cycle env_fail (flags_int 1 false) world0 = Ok tt w'
    ∧ ∀ key, (count (OperationCount world0) key <= count (OperationCount w') key
              <= S (count (OperationCount world0) key))%nat.
Proof. apply (proj1 action_counters_monotone env_fail (flags_int 1 false) world0). Defined.

(** ** The pace of a loop *)

(** A verification loop touches nothing but the clock and the poll
    count.  It issues its lookups at least one second apart: [n] lookups
    take at least [n - 1] seconds, and [n] seconds when the loop gives
    up; it issues none for a timeout of zero or less and at most one per
    second of timeout begun otherwise. *)
Theorem loop_pace env cond name tmo w :
  ∃ (v : bool) elapsed w',
    verify env cond name tmo w = Ok (v, elapsed) w'
    ∧ w' = advance (clock w') (dns_polls w') w
    ∧ (dns_polls w <= dns_polls w')%nat
    ∧ (Z.of_nat (dns_polls w' - dns_polls w) - 1) * Second <= clock w' - clock w
    ∧ (v = false → Z.of_nat (dns_polls w' - dns_polls w) * Second <= clock w' - clock w)
    ∧ Z.of_nat (dns_polls w' - dns_polls w) <= max_polls tmo
    ∧ 0 <= elapsed <= clock w' - clock w.
Proof.
  destruct (verify_run env cond name tmo w) as (v & k & Hrun & _ & Hearly & Hend).
  pose proof (issue_time_ge env (clock w) (dns_polls w) k) as Hge.
  assert (Hknn : 0 <= Z.of_nat k * Second) by (apply Z.mul_nonneg_nonneg; unfold Second; lia).
  eexists v, _, _. split; [exact Hrun|].
  unfold advance; cbn [clock dns_polls]. unfold Second in Hge, Hknn |- *. destruct v.
  - destruct Hend as [_ Hlt].
    replace (S (dns_polls w + k) - dns_polls w)%nat with (S k) by lia.
    split_and!; try done; try lia. apply polls_bound. unfold Second. lia.
  - replace (dns_polls w + k - dns_polls w)%nat with k by lia.
    split_and!; try done; try lia.
    destruct k as [|j]; [unfold max_polls; lia|].
    apply polls_bound. specialize (Hearly j ltac:(lia)).
    pose proof (issue_time_ge env (clock w) (dns_polls w) j). unfold Second in *. lia.
Qed.

Example loop_pace_stuck :
  verify env_stuck not_found "kubernoisy-x" (2 * Second + 1) world0
  = Ok (false, 3 * Second) (advance (3 * Second) 3 world0)
  ∧ max_polls (2 * Second + 1) = 3.
Proof. split; reflexivity. Qed.

(** ** Deletion is verified like creation *)

(** The second loop.  If the resolver first answers with a "no such
    host" error at poll [k], issued before the timeout, the loop ends
    with [verified = true] and [elapsed] equal to the offset at which
    that poll was issued, whatever the polls before answered; if it never
    does, the loop ends with [verified = false] at the first guard at or
    after the timeout. *)
Theorem absence_verification :
  (∀ env name tmo w k,
     (∀ i, (i < k)%nat → not_found (dns_answer env name (dns_polls w + i)) = false) →
     not_found (dns_answer env name (dns_polls w + k)) = true →
     issue_time env (clock w) (dns_polls w) k - clock w < tmo →
     ∃ elapsed w',
       verify env not_found name tmo w = Ok (true, elapsed) w'
       ∧ elapsed = issue_time env (clock w) (dns_polls w) k - clock w
       ∧ Z.of_nat k * Second <= elapsed < tmo
       ∧ dns_polls w' = S (dns_polls w + k)
       ∧ ((∀ n, dns_latency env n = 0%N) → elapsed = Z.of_nat k * Second)) ∧
  (∀ env name tmo w,
     (∀ i, not_found (dns_answer env name (dns_polls w + i)) = false) →
     ∃ elapsed w',
       verify env not_found name tmo w = Ok (false, elapsed) w'
       ∧ elapsed = clock w' - clock w
       ∧ tmo <= elapsed
       ∧ ((∀ n, dns_latency env n = 0%N) → 0 < tmo →
          elapsed < tmo + Second
          ∧ Z.of_nat (dns_polls w' - dns_polls w) * Second = elapsed)).
Proof.
  split.
  - intros env name tmo w k Hfail Hhit Htime.
    eexists _, _. split; [by apply verify_converges|].
    split; [reflexivity|]. split_and!; [| |done|].
    + pose proof (issue_time_ge env (clock w) (dns_polls w) k). lia.
    + lia.
    + intros Hz. rewrite issue_time_no_latency by done. lia.
  - intros env name tmo w Hnever.
    destruct (verify_times_out env not_found name tmo w Hnever) as (k & Hrun & Hge & Hearly).
    eexists _, _. split; [exact Hrun|]. cbn [clock dns_polls advance].
    split; [reflexivity|]. split; [done|].
    intros Hz Hpos. rewrite issue_time_no_latency in * by done.
    replace (dns_polls w + k - dns_polls w)%nat with k by lia.
    split; [|lia].
    destruct k as [|j]; [lia|]. specialize (Hearly j ltac:(lia)).
    rewrite issue_time_no_latency in Hearly by done. unfold Second in *. lia.
Qed.

Lemma absence_verification_witness :
  ∃ elapsed w',
    verify env_ok not_found "kubernoisy-x" (30 * Second) (advance 0 3 world0)
      = Ok (true, elapsed) w'
    ∧ elapsed = issue_time env_ok (clock (advance 0 3 world0))
                  (dns_polls (advance 0 3 world0)) 2 - clock (advance 0 3 world0)
    ∧ Z.of_nat 2 * Second <= elapsed < 30 * Second
    ∧ dns_polls w' = S (dns_polls (advance 0 3 world0) + 2)
    ∧ ((∀ n, dns_latency env_ok n = 0%N) → elapsed = Z.of_nat 2 * Second).
Proof.
  apply (proj1 absence_verification env_ok "kubernoisy-x" (30 * Second)
           (advance 0 3 world0) 2%nat).
  - intros [|[|i]] Hi; [reflexivity | reflexivity | lia].
  - reflexivity.
  - reflexivity.
Defined.

(** ** A cycle ends in time *)




Lemma loop_conditions_witness :
  resolves (LookupError "lookup kubernoisy-x: no such host") = false
  ∧ resolves_to SvcEps.ip (LookupError "lookup kubernoisy-x: no such host") = false.
Proof.
  apply (proj1 (proj2 (proj2 (proj2 (proj2 loop_conditions))))
           (LookupError "lookup kubernoisy-x: no such host")).
  reflexivity.
Defined.
